(** * rapscallion: the VDOM traversal of [src/render/traverse.js]

    A shallow embedding of the recursive tree-to-text renderer
    ([renderChildrenArray], [renderChildren], [renderNode], [evalComponent],
    [traverse]) together with the properties its specification states.

    JavaScript values are an inductive type, property access and truthiness
    are written out, exceptions are an error result, and the busy wait of
    [deasync.loopWhile] is a loop over the turns of the event loop. *)

From stdpp Require Import base option list strings gmap pretty.
From Stdlib Require Import ZArith.

Set Warnings "-register-all".

Local Open Scope string_scope.
Local Open Scope list_scope.

(** ** JavaScript values *)

(** Numbers.  [Finite z] is the double of integer value [z], for [z] below
    [10^21] in magnitude, where [toString] writes all the digits; [NaN] and
    the infinities are apart.  Doubles with a fractional part are outside
    this model. *)
Inductive number : Type :=
  | Finite (z : Z)
  | NaN
  | Infinity (negative : bool).

(** A value.  Objects carry a reference [ref]: two objects are the same
    object exactly when their references agree.  The fields of an object
    are kept in source order. *)
Inductive value : Type :=
  | VUndefined
  | VNull
  | VBool (b : bool)
  | VNum (n : number)
  | VStr (s : string)
  | VFun (name : string)
  | VArr (items : list value)
  | VObj (ref : nat) (fields : list (string * value)).

(** The result of [typeof]. *)
Inductive jstype : Type :=
  | TUndefined | TObject | TBoolean | TNumber | TString | TFunction.

Global Instance jstype_eq_dec : EqDecision jstype.
Proof. solve_decision. Defined.

Definition typeof (v : value) : jstype :=
  match v with
  | VUndefined => TUndefined
  | VNull => TObject
  | VBool _ => TBoolean
  | VNum _ => TNumber
  | VStr _ => TString
  | VFun _ => TFunction
  | VArr _ => TObject
  | VObj _ _ => TObject
  end.

(** [!n] is true of [0] and [NaN] only. *)
Definition number_truthy (n : number) : bool :=
  match n with
  | Finite z => negb (z =? 0)%Z
  | NaN => false
  | Infinity _ => true
  end.

(** ToBoolean: the test behind [if (v)], [!v], [a && b] and [a || b]. *)
Definition truthy (v : value) : bool :=
  match v with
  | VUndefined | VNull => false
  | VBool b => b
  | VNum n => number_truthy n
  | VStr s => negb (String.eqb s "")
  | VFun _ | VArr _ | VObj _ _ => true
  end.

(** [a || b] *)
Definition js_or (a b : value) : value := if truthy a then a else b.

(** [v instanceof Array] *)
Definition instanceof_Array (v : value) : bool :=
  match v with VArr _ => true | _ => false end.

(** Reference identity of a value: only objects have one. *)
Definition identity (v : value) : option nat :=
  match v with VObj r _ => Some r | _ => None end.

(** [Number.prototype.toString] *)
Definition number_toString (n : number) : string :=
  match n with
  | Finite z => pretty z
  | NaN => "NaN"
  | Infinity false => "Infinity"
  | Infinity true => "-Infinity"
  end.

(** ** Errors and results *)

Inductive error : Type :=
  | TypeError (message : string)
  | Thrown (reason : value).

(** What a call does: it returns, it throws, or it never comes back. *)
Inductive outcome (A : Type) : Type :=
  | Ok (a : A)
  | Throw (e : error)
  | Diverge.
Arguments Ok {A} a.
Arguments Throw {A} e.
Arguments Diverge {A}.

Global Instance outcome_ret : MRet outcome := fun A a => Ok a.
Global Instance outcome_bind : MBind outcome := fun A B f m =>
  match m with
  | Ok a => f a
  | Throw e => Throw e
  | Diverge => Diverge
  end.

(** First field named [k] of a field list. *)
Fixpoint lookup_field (k : string) (fields : list (string * value)) : value :=
  match fields with
  | [] => VUndefined
  | (k', v) :: rest => if String.eqb k k' then v else lookup_field k rest
  end.

(** Member access [v.k].  Reading a property of [undefined] or [null]
    throws; the properties read by the traversal ([type], [props],
    [$$typeof], [children], [dangerouslySetInnerHTML], [__html], [then],
    [prototype], [isReactComponent]) exist on no primitive and on no array,
    so they read as [undefined] there. *)
Definition get_prop (v : value) (k : string) : outcome value :=
  match v with
  | VUndefined => Throw (TypeError ("Cannot read property '" +:+ k +:+ "' of undefined"))
  | VNull => Throw (TypeError ("Cannot read property '" +:+ k +:+ "' of null"))
  | VObj _ fields => Ok (lookup_field k fields)
  | _ => Ok VUndefined
  end.

(** ** The emission sequence, as the traversal fills it *)

(** The closure handed to [seq.delegate] in [renderNode]:
    [() => renderChildren(seq, node.props.children, context)]. *)
Inductive thunk : Type :=
  | RenderChildrenOf (node context : value).

(** The closures handed to [seq.delegateCached] in [traverse]:
    [(_seq, _node) => renderNode(_seq, _node, context)] and
    [(_seq, _node) => evalComponent(_seq, _node, context)]. *)
Inductive renderer : Type :=
  | RenderNodeIn (context : value)
  | EvalComponentIn (context : value).

(** A segment source: what [emit], [delegate] and [delegateCached] append.
    Nothing is invoked at registration time. *)
Inductive source : Type :=
  | Emit (fn : unit → string)
  | Delegate (fn : thunk)
  | DelegateCached (node : value) (fn : renderer).

Definition sequence : Type := list source.

Definition emit (seq : sequence) (fn : unit → string) : sequence :=
  seq ++ [Emit fn].
Definition delegate (seq : sequence) (fn : thunk) : sequence :=
  seq ++ [Delegate fn].
Definition delegateCached (seq : sequence) (node : value) (fn : renderer) : sequence :=
  seq ++ [DelegateCached node fn].

(** ** The program being rendered *)

(** User code returns a value or throws one. *)
Inductive completion : Type :=
  | Normal (v : value)
  | Abrupt (e : value).

(** The body of [componentWillMount]: the calls to [this.setState] it makes,
    in order, and how it ends. *)
Inductive script : Type :=
  | Return (res : value)
  | Raise (e : value)
  | SetState (partial : value) (k : script).

(** How a thenable behaves once [then(onFulfilled)] has been called on it.
    [Later sets p]: one more turn of the event loop is needed, during which
    the asynchronous work calls [this.setState] with [sets]; then it behaves
    as [p].  [Forever] never settles. *)
Inductive pending : Type :=
  | Fulfilled
  | Rejected (reason : value)
  | Later (sets : list value) (next : pending)
  | Forever.

(** A class with [prototype.isReactComponent]. *)
Record classDef : Type := {
  construct : value → value → completion;
  componentWillMount : option (value → value → value → script);
  render : value → value → value → completion;
}.

(** What a function value stands for. *)
Inductive fdef : Type :=
  | FComponent (f : value → value → completion)
  | FClass (c : classDef)
  | FThen (p : pending).

(** A component instance: [this.props], [this.context], [this.state]. *)
Record instance : Type := {
  inst_class : string;
  inst_props : value;
  inst_context : value;
  inst_state : value;
}.

(** Second argument of [getChildContext]: the instance of a class, or what
    a function component returned. *)
Inductive instanceOrResult : Type :=
  | OfResult (v : value)
  | OfInstance (i : instance).

(** What happens, in order, while a pass runs. *)
Inductive event : Type :=
  | Called (fn : string)
  | Constructed (cls : string)
  | WillMount (cls : string)
  | Turn
  | Rendered (cls : string).

Definition trace : Type := list event.

(** Effectful code threads the trace. *)
Definition eff (A : Type) : Type := trace → outcome A * trace.

Global Instance eff_ret : MRet eff := fun A a tr => (Ok a, tr).
Global Instance eff_bind : MBind eff := fun A B f m tr =>
  match m tr with
  | (Ok a, tr') => f a tr'
  | (Throw e, tr') => (Throw e, tr')
  | (Diverge, tr') => (Diverge, tr')
  end.

Definition lift {A : Type} (r : outcome A) : eff A := fun tr => (r, tr).
Definition log (e : event) : eff unit := fun tr => (Ok tt, tr ++ [e]).
Definition of_completion (c : completion) : eff value :=
  match c with
  | Normal v => lift (Ok v)
  | Abrupt e => lift (Throw (Thrown e))
  end.

(** [v.k] where the access cannot throw. *)
Definition field (v : value) (k : string) : value :=
  match get_prop v k with
  | Ok x => x
  | _ => VUndefined
  end.

(** ** The shapes of the dispatcher's contract *)

(** The runtime shape of a node: absent ([undefined], [null], [false]), a
    string, a number, an Element (an object whose [type] is a string), a
    ComponentRef (an object with the [$$typeof] marker), or none of those. *)
Inductive shape : Type :=
  | Absent | Text | Numeric | ElementShape | ComponentRefShape | Unknown.

Definition shape_of (node : value) : shape :=
  match node with
  | VUndefined | VNull | VBool false => Absent
  | VStr _ => Text
  | VNum _ => Numeric
  | VObj _ _ =>
      if decide (typeof (field node "type") = TString) then ElementShape
      else if truthy (field node "$$typeof") then ComponentRefShape
      else Unknown
  | VBool true | VFun _ | VArr _ => Unknown
  end.

(** Depth-first, left-to-right flattening of a child: the leaves of a
    nested NodeList in pre-order; a child that is no list is its own leaf. *)
Fixpoint flatten (child : value) : list value :=
  match child with
  | VArr items =>
      (fix each (l : list value) : list value :=
         match l with
         | [] => []
         | c :: rest => flatten c ++ each rest
         end) items
  | _ => [child]
  end.

(** ** A small program to render

    Concrete collaborators and components, on which the definitions run. *)
Module Demo.

Definition htmlStringEscape (s : string) : string := "{" +:+ s +:+ "}".
Definition renderAttrs (props : value) : string := "".
Definition REACT_ID : string := " data-reactid".
Definition getContext (ty context : value) : value := context.
Definition getChildContext (ty : value) (i : instanceOrResult) (context : value)
    : value := context.
Definition functionSource (name : string) : string := name.

(** [Object.assign({}, state, partial)] on field lists. *)
Definition syncSetState (state partial : value) : value :=
  match state, partial with
  | VObj r fields, VObj _ news => VObj r (news ++ fields)
  | _, _ => partial
  end.

(** A promise whose data arrives one turn later and is stored with
    [this.setState]; it fulfils on the turn after. *)
Definition loaded : value := VObj 100 [("then", VFun "loaded.then")].
(** A promise that is rejected. *)
Definition failed : value := VObj 101 [("then", VFun "failed.then")].
(** A promise that stays pending. *)
Definition stuck : value := VObj 102 [("then", VFun "stuck.then")].

(** A class that starts loading in [componentWillMount] and renders the
    [status] and the [data] of [this.state]. *)
Definition Loader (promise : value) : classDef := {|
  construct := fun _ _ => Normal (VObj 1 [("status", VStr "new")]);
  componentWillMount := Some (fun _ _ _ =>
    SetState (VObj 2 [("status", VStr "loading")]) (Return promise));
  render := fun _ _ state =>
    Normal (VObj 3 [("type", VStr "p");
                    ("props", VObj 4 [("children",
                       VArr [field state "status"; field state "data"])])]);
|}.

(** A function component. *)
Definition Hello (props context : value) : completion :=
  Normal (VObj 5 [("type", VStr "b");
                  ("props", VObj 6 [("children", field props "name")])]).

Definition fenv (name : string) : fdef :=
  if String.eqb name "Loader" then FClass (Loader loaded)
  else if String.eqb name "Failing" then FClass (Loader failed)
  else if String.eqb name "Stuck" then FClass (Loader stuck)
  else if String.eqb name "loaded.then" then
    FThen (Later [VObj 7 [("data", VStr "ready")]] Fulfilled)
  else if String.eqb name "failed.then" then FThen (Rejected (VStr "boom"))
  else if String.eqb name "stuck.then" then FThen Forever
  else FComponent Hello.

(** [<Loader/>], [<Failing/>], [<Hello name="you"/>] and [<i>x</i>]. *)
Definition loader : value :=
  VObj 10 [("$$typeof", VStr "react.element"); ("type", VFun "Loader");
           ("props", VObj 11 [])].
Definition failing : value :=
  VObj 12 [("$$typeof", VStr "react.element"); ("type", VFun "Failing");
           ("props", VObj 13 [])].
Definition hello : value :=
  VObj 14 [("$$typeof", VStr "react.element"); ("type", VFun "Hello");
           ("props", VObj 15 [("name", VStr "you")])].
Definition italic : value :=
  VObj 16 [("$$typeof", VStr "react.element"); ("type", VStr "i");
           ("props", VObj 17 [("children", VStr "x")])].

(** [<div dangerouslySetInnerHTML={{__html: "<em>hi</em>"}}>ignored</div>],
    and the same with an [__html] that is missing. *)
Definition raw : value :=
  VObj 18 [("$$typeof", VStr "react.element"); ("type", VStr "div");
           ("props", VObj 19 [("dangerouslySetInnerHTML",
                               VObj 20 [("__html", VStr "<em>hi</em>")]);
                              ("children", VStr "ignored")])].
Definition rawEmpty : value :=
  VObj 21 [("$$typeof", VStr "react.element"); ("type", VStr "div");
           ("props", VObj 22 [("dangerouslySetInnerHTML", VObj 23 []);
                              ("children", VStr "ignored")])].

(** More classes: one without [componentWillMount], one whose hook sets
    the state and returns nothing, one whose hook throws, one whose
    constructor throws, and one whose hook returns an object with a [then]
    that is no function. *)
Definition renderStatus (props context state : value) : completion :=
  Normal (field state "status").
Definition Plain : classDef := {|
  construct := fun _ _ => Normal (VObj 30 [("status", VStr "new")]);
  componentWillMount := None;
  render := renderStatus;
|}.
Definition Sync : classDef := {|
  construct := fun _ _ => Normal (VObj 31 [("status", VStr "new")]);
  componentWillMount := Some (fun _ _ _ =>
    SetState (VObj 32 [("status", VStr "mounted")]) (Return VUndefined));
  render := renderStatus;
|}.
Definition Broken : classDef := {|
  construct := fun _ _ => Normal (VObj 33 []);
  componentWillMount := Some (fun _ _ _ => Raise (VStr "bad hook"));
  render := renderStatus;
|}.
Definition NoCtor : classDef := {|
  construct := fun _ _ => Abrupt (VStr "bad constructor");
  componentWillMount := None;
  render := renderStatus;
|}.
Definition Odd : classDef := {|
  construct := fun _ _ => Normal (VObj 34 []);
  componentWillMount := Some (fun _ _ _ =>
    Return (VObj 35 [("then", VNum (Finite 5))]));
  render := renderStatus;
|}.

Definition fenv_more (name : string) : fdef :=
  if String.eqb name "Plain" then FClass Plain
  else if String.eqb name "Sync" then FClass Sync
  else if String.eqb name "Broken" then FClass Broken
  else if String.eqb name "NoCtor" then FClass NoCtor
  else if String.eqb name "Odd" then FClass Odd
  else fenv name.

(** [<C/>] for a component named [name], with empty props. *)
Definition component (ref : nat) (name : string) : value :=
  VObj ref [("$$typeof", VStr "react.element"); ("type", VFun name);
            ("props", VObj (S ref) [])].
(** A node with the component marker and no [type]. *)
Definition untyped : value :=
  VObj 50 [("$$typeof", VStr "react.element"); ("props", VObj 51 [])].
(** An element without [props]. *)
Definition propless : value := VObj 52 [("type", VStr "div")].

End Demo.

(** The pass-scoped cache: node identity to the realized segments. *)
Abbreviation cache := (gmap nat (list string)).

Section Traverse.

(** *** Collaborators required by [traverse.js] *)

(** [./util]: escapes markup-significant characters of a text leaf. *)
Variable htmlStringEscape : string → string.
(** [./attrs]: the serialized attribute string of a props object, which
    is what [renderAttrs(node.props, seq)] returns. *)
Variable renderAttrs : value → string.
(** [../symbols]: the identity marker, an opaque constant. *)
Variable REACT_ID : string.
(** [./context] *)
Variable getContext : value → value → value.
Variable getChildContext : value → instanceOrResult → value → value.
(** [./state]: [syncSetState state partial] is [this.state] after
    [this.setState(partial)]. *)
Variable syncSetState : value → value → value.

(** *** The host *)

(** The function each function value denotes, and its source text. *)
Variable fenv : string → fdef.
Variable functionSource : string → string.

(** ToString, as template literals and string concatenation apply it. *)
Fixpoint ToString (v : value) : string :=
  match v with
  | VUndefined => "undefined"
  | VNull => "null"
  | VBool true => "true"
  | VBool false => "false"
  | VNum n => number_toString n
  | VStr s => s
  | VFun name => functionSource name
  | VArr items =>
      String.concat ","
        ((fix each (l : list value) : list string :=
            match l with
            | [] => []
            | x :: rest =>
                match x with
                | VUndefined | VNull => ""
                | _ => ToString x
                end :: each rest
            end) items)
  | VObj _ _ => "[object Object]"
  end.

(** *** [traverse] *)

Definition traverse (seq : sequence) (node context : value) : outcome sequence :=
  if negb (truthy node) then Ok seq
  else
    match typeof node with
    | TString =>
        Ok (emit seq (fun _ => htmlStringEscape (ToString node)))
    | TNumber =>
        Ok (emit seq (fun _ => ToString node))
    | TObject =>
        ty ← get_prop node "type";
        if decide (typeof ty = TString) then
          Ok (delegateCached seq node (RenderNodeIn context))
        else
          marker ← get_prop node "$$typeof";
          if truthy marker then
            Ok (delegateCached seq node (EvalComponentIn context))
          else
            Throw (TypeError ("Unknown node of type: " +:+ ToString ty))
    | _ =>
        ty ← get_prop node "type";
        Throw (TypeError ("Unknown node of type: " +:+ ToString ty))
    end.

(** *** [renderChildrenArray] and [renderChildren] *)

(** The body of the loop of [renderChildrenArray] for one [child].  The
    recursion of [renderChildrenArray] on a nested array is structural on
    the child, so the loop over the items of a nested array is written
    inside. *)
Fixpoint renderChild (seq : sequence) (child context : value) {struct child}
    : outcome sequence :=
  match child with
  | VArr items =>
      (fix loop (seq : sequence) (children : list value) {struct children}
           : outcome sequence :=
         match children with
         | [] => Ok seq
         | child :: rest =>
             seq' ← renderChild seq child context;
             loop seq' rest
         end) seq items
  | _ => traverse seq child context
  end.

Fixpoint renderChildrenArray (seq : sequence) (children : list value)
    (context : value) {struct children} : outcome sequence :=
  match children with
  | [] => Ok seq
  | child :: rest =>
      seq' ← renderChild seq child context;
      renderChildrenArray seq' rest context
  end.

Definition renderChildren (seq : sequence) (children context : value)
    : outcome sequence :=
  if negb (truthy children) then Ok seq
  else
    match children with
    | VArr items => renderChildrenArray seq items context
    | _ => traverse seq children context
    end.

(** *** [renderNode]

    The four [emit]s of lines 40 to 43 only register closures; the first
    property read that can throw is [node.props.dangerouslySetInnerHTML] of
    line 44.  Once it has passed, [node] and [node.props] are objects and
    the closures read [node.type] and [node.props] without throwing. *)
Definition renderNode (seq : sequence) (node context : value) : outcome sequence :=
  props ← get_prop node "props";
  let ty := field node "type" in
  let seq := emit seq (fun _ => "<" +:+ ToString ty) in
  let seq := emit seq (fun _ => renderAttrs props) in
  let seq := emit seq (fun _ => REACT_ID) in
  let seq := emit seq (fun _ => ">") in
  raw ← get_prop props "dangerouslySetInnerHTML";
  let seq :=
    if truthy raw then
      emit seq (fun _ =>
        match get_prop raw "__html" with
        | Ok html => ToString (js_or html (VStr ""))
        | _ => ""
        end)
    else
      delegate seq (RenderChildrenOf node context) in
  Ok (emit seq (fun _ => "</" +:+ ToString ty +:+ ">")).

(** *** [evalComponent] *)

(** [node.type.prototype && node.type.prototype.isReactComponent] *)
Definition isReactComponent (ty : value) : outcome bool :=
  match ty with
  | VFun name => Ok (match fenv name with FClass _ => true | _ => false end)
  | _ =>
      proto ← get_prop ty "prototype";
      if truthy proto then
        flag ← get_prop proto "isReactComponent"; Ok (truthy flag)
      else Ok false
  end.

(** [node.type(node.props, componentContext)] *)
Definition call (ty props context : value) : eff value :=
  match ty with
  | VFun name =>
      match fenv name with
      | FComponent f => _ ← log (Called name); of_completion (f props context)
      | FClass _ =>
          lift (Throw (TypeError "Class constructor cannot be invoked without 'new'"))
      | FThen _ =>
          lift (Throw (TypeError "then called on incompatible receiver undefined"))
      end
  | _ => lift (Throw (TypeError "node.type is not a function"))
  end.

(** [new node.type(node.props, componentContext)] *)
Definition new (ty props context : value) : eff (classDef * instance) :=
  match ty with
  | VFun name =>
      match fenv name with
      | FClass c =>
          _ ← log (Constructed name);
          state ← of_completion (construct c props context);
          mret (c, {| inst_class := name; inst_props := props;
                      inst_context := context; inst_state := state |})
      | _ => lift (Throw (TypeError "node.type is not a constructor"))
      end
  | _ => lift (Throw (TypeError "node.type is not a constructor"))
  end.

Definition with_state (i : instance) (state : value) : instance :=
  {| inst_class := inst_class i; inst_props := inst_props i;
     inst_context := inst_context i; inst_state := state |}.

(** Runs the body of a hook; every [this.setState] goes through
    [syncSetState], which line 80 has installed on the instance. *)
Fixpoint run_script (s : script) (state : value) : outcome (value * value) :=
  match s with
  | Return res => Ok (res, state)
  | Raise e => Throw (Thrown e)
  | SetState partial k => run_script k (syncSetState state partial)
  end.

(** [instance.componentWillMount()] *)
Definition call_componentWillMount (hook : value → value → value → script)
    (i : instance) : eff (value * instance) :=
  _ ← log (WillMount (inst_class i));
  '(res, state) ← lift (run_script
                          (hook (inst_props i) (inst_context i) (inst_state i))
                          (inst_state i));
  mret (res, with_state i state).

(** [instance.render()] *)
Definition call_render (c : classDef) (i : instance) : eff value :=
  _ ← log (Rendered (inst_class i));
  of_completion (render c (inst_props i) (inst_context i) (inst_state i)).

(** The callback of line 91, when it has to be passed as a value. *)
Definition onFulfilled : value := VFun "() => {done = true;}".

(** [promise.then(() => {done = true;})]: how the callback will be run.
    A function component given the callback as its props has no way to
    run it. *)
Definition call_then (promise : value) : eff pending :=
  method ← lift (get_prop promise "then");
  match method with
  | VFun name =>
      match fenv name with
      | FThen p => mret p
      | FComponent f =>
          _ ← log (Called name);
          _ ← of_completion (f onFulfilled VUndefined);
          mret Forever
      | FClass _ =>
          lift (Throw (TypeError "Class constructor cannot be invoked without 'new'"))
      end
  | _ => lift (Throw (TypeError "promise.then is not a function"))
  end.

(** One turn of the event loop, seen from [done] and [this.state].  Only
    a fulfilment runs the callback of line 91: it was registered with
    [then] as [onFulfilled], and no [onRejected] was given. *)
Definition turn (promise : option pending) (done : bool) (state : value)
    : option pending * bool * value :=
  match promise with
  | Some Fulfilled => (Some Fulfilled, true, state)
  | Some (Rejected reason) => (Some (Rejected reason), done, state)
  | Some (Later sets next) => (Some next, done, foldl syncSetState state sets)
  | Some Forever => (Some Forever, done, state)
  | None => (None, done, state)
  end.

(** [require('deasync').loopWhile(function(){return !done;})]: pumps the
    event loop, one turn at a time, for as long as [!done].  [fuel]
    bounds the number of turns looked at. *)
Fixpoint loopWhile (fuel : nat) (promise : option pending) (done : bool)
    (state : value) : eff (bool * value) :=
  if negb done then
    match fuel with
    | 0 => fun tr => (Diverge, tr)
    | S fuel' =>
        _ ← log Turn;
        let '(promise', done', state') := turn promise done state in
        loopWhile fuel' promise' done' state'
    end
  else mret (done, state).

Definition evalComponent (fuel : nat) (seq : sequence) (node context : value)
    : eff sequence :=
  ty ← lift (get_prop node "type");
  props ← lift (get_prop node "props");
  let componentContext := getContext ty context in
  cls ← lift (isReactComponent ty);
  if negb cls then
    instance ← call ty props componentContext;
    let childContext := getChildContext ty (OfResult instance) context in
    lift (traverse seq instance childContext)
  else
    '(c, instance) ← new ty props componentContext;
    '(res, instance) ←
      match componentWillMount c with
      | Some hook => call_componentWillMount hook instance
      | None => mret (VNull, instance)
      end;
    method ← lift (if truthy res then get_prop res "then" else Ok res);
    let promise := if truthy method then res else VNull in
    '(pending, done) ←
      (if truthy promise then p ← call_then promise; mret (Some p, false)
       else mret (None, true));
    '(done, state) ← loopWhile fuel pending done (inst_state instance);
    if (done : bool) then
      let instance := with_state instance state in
      let childContext := getChildContext ty (OfInstance instance) context in
      rendered ← call_render c instance;
      lift (traverse seq rendered childContext)
    else mret seq.

(** *** Realization of the emission sequence *)

(** Invoking the closure of line 47. *)
Definition run_thunk (fn : thunk) (seq : sequence) : outcome sequence :=
  match fn with
  | RenderChildrenOf node context =>
      props ← get_prop node "props";
      children ← get_prop props "children";
      renderChildren seq children context
  end.

(** Invoking the closures of lines 132 and 136 on [(_seq, _node)]. *)
Definition run_renderer (fuel : nat) (fn : renderer) (seq : sequence)
    (node : value) : eff sequence :=
  match fn with
  | RenderNodeIn context => lift (renderNode seq node context)
  | EvalComponentIn context => evalComponent fuel seq node context
  end.

Definition cached (c : cache) (node : value) : option (list string) :=
  r ← identity node; c !! r.

Definition remember (c : cache) (node : value) (out : list string) : cache :=
  match identity node with
  | Some r => <[r := out]> c
  | None => c
  end.

(** Modelled from the spec: realization of one segment source (the
    Sequence class is not among the sources).  A deferred text-producing
    unit is invoked and gives one segment; a delegated sub-sequence is
    filled by invoking its producer and realized in place;
    [delegateCached] does the same unless this node reference was
    realized before in the pass, in which case the stored result is
    reused and the producer is not invoked.  [sub] realizes a
    sub-sequence. *)
Definition realize_source (sub : sequence → cache → eff (list string * cache))
    (fuel : nat) (src : source) (c : cache) : eff (list string * cache) :=
  match src with
  | Emit fn => mret ([fn tt], c)
  | Delegate fn =>
      seq ← lift (run_thunk fn []);
      sub seq c
  | DelegateCached node fn =>
      match cached c node with
      | Some out => mret (out, c)
      | None =>
          seq ← run_renderer fuel fn [] node;
          '(out, c) ← sub seq c;
          mret (out, remember c node out)
      end
  end.

(** Modelled from the spec: the segment sources are walked in
    registration order, and the output is the concatenation of what each
    gives. *)
Fixpoint walk (one : source → cache → eff (list string * cache))
    (seq : sequence) (c : cache) {struct seq} : eff (list string * cache) :=
  match seq with
  | [] => mret ([], c)
  | src :: rest =>
      '(out, c) ← one src c;
      '(outs, c) ← walk one rest c;
      mret (out ++ outs, c)
  end.

(** Modelled from the spec: [realize()] of the Sequence.  [fuel] bounds
    the nesting of delegated sub-sequences and the turns of the event
    loop spent in one component. *)
Fixpoint realize (fuel : nat) (seq : sequence) (c : cache) {struct fuel}
    : eff (list string * cache) :=
  match fuel with
  | 0 => fun tr => (Diverge, tr)
  | S fuel' => walk (realize_source (realize fuel') fuel') seq c
  end.

(** Modelled from the spec: one render pass, from a root node and an
    initial context to the concatenated string, with a cache and a
    sequence of its own. *)
Definition renderPass (fuel : nat) (root context : value) : eff string :=
  seq ← lift (traverse [] root context);
  '(out, _) ← realize fuel seq ∅;
  mret (String.concat "" out).

(** ** Properties *)

(** Dispatching the nodes of a list one by one, in order. *)
Fixpoint dispatch_all (seq : sequence) (nodes : list value) (context : value)
    : outcome sequence :=
  match nodes with
  | [] => Ok seq
  | node :: rest =>
      seq' ← traverse seq node context;
      dispatch_all seq' rest context
  end.

(** The error of line 142 for [node]. *)
Definition unknown_node (node : value) : error :=
  TypeError ("Unknown node of type: " +:+ ToString (field node "type")).

(** What is in the cache stays in it. *)
Definition keeps (c c' : cache) : Prop :=
  ∀ node out, cached c node = Some out → cached c' node = Some out.

(** Turns of the event loop until the callback given to [then] has run,
    and [this.state] at that time; [None] when it never runs. *)
Fixpoint settle (p : pending) (state : value) : option (nat * value) :=
  match p with
  | Fulfilled => Some (1, state)
  | Later sets next =>
      '(n, state') ← settle next (foldl syncSetState state sets);
      Some (S n, state')
  | Rejected _ | Forever => None
  end.

(** The thenable settles with a rejection. *)
Fixpoint ends_rejected (p : pending) : bool :=
  match p with
  | Rejected _ => true
  | Later _ next => ends_rejected next
  | Fulfilled | Forever => false
  end.

(** Realizing nodes one after the other: each node is dispatched into a
    sequence of its own, which is realized before the next node is looked
    at, and the outputs are concatenated in order. *)
Fixpoint render_each (fuel : nat) (nodes : list value) (context : value)
    (c : cache) : eff (list string * cache) :=
  match nodes with
  | [] => mret ([], c)
  | node :: rest =>
      seq ← lift (traverse [] node context);
      '(out, c) ← realize fuel seq c;
      '(outs, c) ← render_each fuel rest context c;
      mret (out ++ outs, c)
  end.

(** [v == null]: [undefined] or [null]. *)
Definition nullish (v : value) : bool :=
  match v with
  | VUndefined | VNull => true
  | _ => false
  end.

(** A node of one of the shapes the dispatcher handles. *)
Definition known (node : value) : bool :=
  match shape_of node with
  | Unknown => false
  | _ => true
  end.

(** The dispatch table of [traverse], by shape: the sources a node of a
    known shape adds to the sequence. *)
Definition registered (context node : value) : list source :=
  match shape_of node with
  | Absent | Unknown => []
  | Text =>
      if truthy node then [Emit (fun _ => htmlStringEscape (ToString node))]
      else []
  | Numeric =>
      if truthy node then [Emit (fun _ => ToString node)] else []
  | ElementShape => [DelegateCached node (RenderNodeIn context)]
  | ComponentRefShape => [DelegateCached node (EvalComponentIn context)]
  end.

Lemma bind_Ok {A B : Type} (a : A) (f : A → outcome B) : Ok a ≫= f = f a.
Proof. reflexivity. Qed.

Lemma traverse_falsy seq node context :
  truthy node = false → traverse seq node context = Ok seq.
Proof. intros H. unfold traverse. now rewrite H. Qed.

Lemma dispatch_all_app seq l1 l2 context :
  dispatch_all seq (l1 ++ l2) context
  = dispatch_all seq l1 context ≫= λ seq', dispatch_all seq' l2 context.
Proof.
  revert seq. induction l1 as [|n l1 IH]; intros seq; simpl; [reflexivity|].
  destruct (traverse seq n context) as [seq'| |]; simpl; auto.
Qed.

(** The loop of [renderChildrenArray], as the source writes its body. *)
Lemma renderChildrenArray_cons seq child rest context :
  renderChildrenArray seq (child :: rest) context
  = (if instanceof_Array child
     then match child with
          | VArr items => renderChildrenArray seq items context
          | _ => Ok seq
          end
     else traverse seq child context)
    ≫= λ seq', renderChildrenArray seq' rest context.
Proof.
  simpl. destruct child as [ | | b | n | s | name | items | r fields ]; simpl;
    try reflexivity.
  f_equal. revert seq. induction items as [|c items IH]; intros seq; simpl; [reflexivity|].
  destruct (renderChild seq c context); simpl; auto.
Qed.

Lemma renderChild_flatten context :
  ∀ child seq, renderChild seq child context = dispatch_all seq (flatten child) context.
Proof.
  fix IH 1. intros child seq.
  destruct child as [ | | b | n | s | name | items | r fields ];
    cbn [renderChild flatten dispatch_all];
    try (match goal with |- ?t = _ => destruct t end; reflexivity).
  revert seq. induction items as [|c items IHitems]; intros seq; [reflexivity|].
  rewrite dispatch_all_app, IH.
  destruct (dispatch_all seq (flatten c) context); simpl; auto.
Qed.

Lemma traverse_number seq n context :
  number_truthy n = true →
  traverse seq (VNum n) context = Ok (seq ++ [Emit (fun _ => number_toString n)]).
Proof. intros H. unfold traverse. simpl. rewrite H. reflexivity. Qed.

Lemma traverse_text seq s context :
  s ≠ "" →
  traverse seq (VStr s) context = Ok (seq ++ [Emit (fun _ => htmlStringEscape s)]).
Proof.
  intros H. unfold traverse. simpl.
  destruct (String.eqb_spec s ""); [contradiction|reflexivity].
Qed.

(** C2: the numeric leaf [0] is falsy, so the guard of line 117 returns
    before the [number] case is reached: no segment is appended for it and
    a pass over it gives the empty string, not its decimal string. *)
Theorem traverse_zero_appends_nothing seq context fuel tr :
  traverse seq (VNum (Finite 0)) context = Ok seq
  ∧ renderPass (S fuel) (VNum (Finite 0)) context tr = (Ok "", tr)
  ∧ number_toString (Finite 0) = "0".
Proof. repeat split. Qed.

(** C6: a node whose shape is none of absent, string, number, Element and
    ComponentRef makes the dispatcher throw the TypeError of line 142, which
    carries the node's [type]; nothing is appended and the pass ends with
    that error instead of an output.  An absent node ([undefined], [null],
    [false]) is a no-op. *)
Theorem traverse_unknown_or_absent seq node context :
  (shape_of node = Unknown →
     traverse seq node context = Throw (unknown_node node)
     ∧ ∀ fuel tr, renderPass fuel node context tr = (Throw (unknown_node node), tr))
  ∧ (shape_of node = Absent →
     traverse seq node context = Ok seq
     ∧ ∀ fuel tr, renderPass (S fuel) node context tr = (Ok "", tr)).
Proof.
  split; intros Hshape.
  - assert (∀ seq, traverse seq node context = Throw (unknown_node node)) as Hthrow.
    { clear seq. intros seq.
      destruct node as [ | | [|] | n | s | name | items | r fields ];
        try discriminate; try reflexivity.
      unfold shape_of, field in Hshape. unfold traverse, unknown_node, field.
      cbn [truthy negb typeof get_prop] in *. rewrite bind_Ok.
      destruct (decide (typeof (lookup_field "type" fields) = TString)); [discriminate|].
      rewrite bind_Ok.
      destruct (truthy (lookup_field "$$typeof" fields)); [discriminate|reflexivity]. }
    split; [apply Hthrow|].
    intros fuel tr. unfold renderPass. unfold mbind at 1, eff_bind, lift.
    now rewrite Hthrow.
  - assert (truthy node = false) as Hfalsy.
    { destruct node as [ | | [|] | n | s | name | items | r fields ];
        try discriminate; try reflexivity.
      unfold shape_of in Hshape. repeat case_match; discriminate. }
    split; [now apply traverse_falsy|].
    intros fuel tr. unfold renderPass. unfold mbind at 1, eff_bind, lift.
    now rewrite traverse_falsy.
Qed.

(** C10: children that are a single node, not an array, are handed to
    [traverse] as they are: [renderChildren] on them is [traverse] on them,
    and so is the closure that [renderNode] delegates to. *)
Theorem lone_child_dispatched seq node props children context :
  get_prop node "props" = Ok props →
  get_prop props "children" = Ok children →
  instanceof_Array children = false →
  renderChildren seq children context = traverse seq children context
  ∧ run_thunk (RenderChildrenOf node context) seq = traverse seq children context.
Proof.
  intros Hprops Hchildren Harr.
  assert (renderChildren seq children context = traverse seq children context) as H.
  { unfold renderChildren.
    destruct (truthy children) eqn:Ht; simpl.
    - destruct children; try reflexivity; discriminate.
    - symmetry. now apply traverse_falsy. }
  split; [exact H|].
  unfold run_thunk. now rewrite Hprops, bind_Ok, Hchildren, bind_Ok.
Qed.

(** C3 (amended): a NodeList is dispatched element by element, in order and
    recursing on nested NodeLists, where it is the children of an element
    ([renderChildren]); handed to [traverse] itself, a NodeList is an
    unknown node and the TypeError of line 142 is thrown. *)
Theorem nodelist_dispatched_as_children_only seq items context :
  traverse seq (VArr items) context = Throw (unknown_node (VArr items))
  ∧ renderChildren seq (VArr items) context = renderChildrenArray seq items context
  ∧ renderChildrenArray seq [] context = Ok seq
  ∧ ∀ child rest,
      renderChildrenArray seq (child :: rest) context
      = match child with
        | VArr nested => renderChildrenArray seq nested context
        | _ => traverse seq child context
        end ≫= λ seq', renderChildrenArray seq' rest context.
Proof.
  repeat split.
  intros child rest. rewrite renderChildrenArray_cons.
  destruct child; reflexivity.
Qed.

Lemma renderChildrenArray_flatten seq items context :
  renderChildrenArray seq items context = dispatch_all seq (flatten (VArr items)) context.
Proof.
  revert seq. induction items as [|c items IH]; intros seq; [reflexivity|].
  cbn [renderChildrenArray]. change (flatten (VArr (c :: items))) with (flatten c ++ flatten (VArr items)).
  rewrite dispatch_all_app, renderChild_flatten.
  destruct (dispatch_all seq (flatten c) context); simpl; auto.
Qed.

(** *** Realization *)

Lemma walk_cons one src rest c tr :
  walk one (src :: rest) c tr
  = match one src c tr with
    | (Ok (out, c1), tr1) =>
        match walk one rest c1 tr1 with
        | (Ok (outs, c2), tr2) => (Ok (out ++ outs, c2), tr2)
        | (Throw e, tr2) => (Throw e, tr2)
        | (Diverge, tr2) => (Diverge, tr2)
        end
    | (Throw e, tr1) => (Throw e, tr1)
    | (Diverge, tr1) => (Diverge, tr1)
    end.
Proof.
  cbn [walk]. unfold mbind, eff_bind, mret, eff_ret.
  destruct (one src c tr) as [[[out c1]| |] tr1]; try reflexivity.
  destruct (walk one rest c1 tr1) as [[[outs c2]| |] tr2]; reflexivity.
Qed.

Lemma walk_app one seq1 seq2 c tr :
  walk one (seq1 ++ seq2) c tr
  = match walk one seq1 c tr with
    | (Ok (out1, c1), tr1) =>
        match walk one seq2 c1 tr1 with
        | (Ok (out2, c2), tr2) => (Ok (out1 ++ out2, c2), tr2)
        | (Throw e, tr2) => (Throw e, tr2)
        | (Diverge, tr2) => (Diverge, tr2)
        end
    | (Throw e, tr1) => (Throw e, tr1)
    | (Diverge, tr1) => (Diverge, tr1)
    end.
Proof.
  revert c tr. induction seq1 as [|src seq1 IH]; intros c tr.
  - cbn [app walk]. unfold mret, eff_ret.
    destruct (walk one seq2 c tr) as [[[out2 c2]| |] tr2]; reflexivity.
  - cbn [app]. rewrite !walk_cons.
    destruct (one src c tr) as [[[out c1]| |] tr1]; try reflexivity.
    rewrite IH.
    destruct (walk one seq1 c1 tr1) as [[[out1 c1']| |] tr1']; try reflexivity.
    destruct (walk one seq2 c1' tr1') as [[[out2 c2]| |] tr2]; try reflexivity.
    now rewrite app_assoc.
Qed.

Lemma realize_S fuel seq c tr :
  realize (S fuel) seq c tr = walk (realize_source (realize fuel) fuel) seq c tr.
Proof. reflexivity. Qed.

Lemma keeps_refl c : keeps c c.
Proof. intros node out H. exact H. Qed.

Lemma keeps_trans c1 c2 c3 : keeps c1 c2 → keeps c2 c3 → keeps c1 c3.
Proof. intros H12 H23 node out H. apply H23, H12, H. Qed.

Lemma cached_remember c node out r :
  identity node = Some r → cached (remember c node out) node = Some out.
Proof.
  intros Hr. unfold cached, remember. rewrite Hr. simpl. apply lookup_insert_eq.
Qed.

Lemma walk_keeps one :
  (∀ src c tr out c' tr', one src c tr = (Ok (out, c'), tr') → keeps c c') →
  ∀ seq c tr out c' tr', walk one seq c tr = (Ok (out, c'), tr') → keeps c c'.
Proof.
  intros Hone. induction seq as [|src seq IH]; intros c tr out c' tr' H.
  - cbn in H. inversion H; subst. apply keeps_refl.
  - rewrite walk_cons in H.
    destruct (one src c tr) as [[[o1 c1]| |] tr1] eqn:H1; try discriminate.
    destruct (walk one seq c1 tr1) as [[[o2 c2]| |] tr2] eqn:H2; try discriminate.
    inversion H; subst. eapply keeps_trans; eauto.
Qed.

Lemma realize_source_keeps sub fuel :
  (∀ seq c tr out c' tr', sub seq c tr = (Ok (out, c'), tr') → keeps c c') →
  ∀ src c tr out c' tr',
    realize_source sub fuel src c tr = (Ok (out, c'), tr') → keeps c c'.
Proof.
  intros Hsub src c tr out c' tr' H.
  destruct src as [fn|fn|node fn]; cbn [realize_source] in H.
  - inversion H; subst. apply keeps_refl.
  - unfold mbind, eff_bind, lift in H.
    destruct (run_thunk fn []) as [seq| |]; try discriminate. eauto.
  - destruct (cached c node) as [hit|] eqn:Hc.
    + inversion H; subst. apply keeps_refl.
    + unfold mbind, eff_bind, mret, eff_ret in H.
      destruct (run_renderer fuel fn [] node tr) as [[seq| |] tr1]; try discriminate.
      destruct (sub seq c tr1) as [[[o c1]| |] tr2] eqn:Hs; try discriminate.
      inversion H; subst.
      assert (keeps c c1) as Hk by eauto.
      intros n o' Hn. specialize (Hk n o' Hn).
      unfold remember, cached in *.
      destruct (identity node) as [r|] eqn:Hr; [|exact Hk].
      destruct (identity n) as [k|] eqn:Hkk; [|discriminate]. simpl in *.
      rewrite lookup_insert_ne; [exact Hk|]. intros ->. congruence.
Qed.

Lemma realize_keeps fuel :
  ∀ seq c tr out c' tr', realize fuel seq c tr = (Ok (out, c'), tr') → keeps c c'.
Proof.
  induction fuel as [|fuel IH]; intros seq c tr out c' tr' H; [discriminate|].
  rewrite realize_S in H. revert H. apply walk_keeps.
  apply realize_source_keeps. exact IH.
Qed.

(** A cache hit: the stored segments are the result, nothing is invoked. *)
Lemma realize_source_hit sub fuel node fn c tr out :
  cached c node = Some out →
  realize_source sub fuel (DelegateCached node fn) c tr = (Ok (out, c), tr).
Proof. intros H. cbn [realize_source]. now rewrite H. Qed.

(** After an encounter, the node's segments are in the cache. *)
Lemma realize_source_stores sub fuel node r fn c tr out c' tr' :
  identity node = Some r →
  realize_source sub fuel (DelegateCached node fn) c tr = (Ok (out, c'), tr') →
  cached c' node = Some out.
Proof.
  intros Hr H. cbn [realize_source] in H.
  destruct (cached c node) as [hit|] eqn:Hc.
  - inversion H; subst. exact Hc.
  - unfold mbind, eff_bind, mret, eff_ret in H.
    destruct (run_renderer fuel fn [] node tr) as [[seq| |] tr1]; try discriminate.
    destruct (sub seq c tr1) as [[[o c1]| |] tr2] eqn:Hs; try discriminate.
    inversion H; subst. eapply cached_remember; eauto.
Qed.

Lemma traverse_from_nil seq node context :
  traverse seq node context
  = traverse [] node context ≫= λ new, Ok (seq ++ new).
Proof.
  unfold traverse. destruct (truthy node); cbn [negb].
  - destruct (typeof node); try reflexivity;
      try (destruct (get_prop node "type") as [ty| |]; reflexivity).
    destruct (get_prop node "type") as [ty| |]; try reflexivity.
    rewrite !bind_Ok. destruct (decide (typeof ty = TString)); [reflexivity|].
    destruct (get_prop node "$$typeof") as [marker| |]; try reflexivity.
    rewrite !bind_Ok. destruct (truthy marker); reflexivity.
  - rewrite bind_Ok. now rewrite app_nil_r.
Qed.

Lemma dispatch_all_from_nil nodes context :
  ∀ seq, dispatch_all seq nodes context
         = dispatch_all [] nodes context ≫= λ new, Ok (seq ++ new).
Proof.
  induction nodes as [|node rest IH]; intros seq; cbn [dispatch_all].
  - rewrite bind_Ok. now rewrite app_nil_r.
  - rewrite (traverse_from_nil seq).
    destruct (traverse [] node context) as [new| |]; try reflexivity.
    rewrite !bind_Ok. rewrite (IH (seq ++ new)), (IH new).
    destruct (dispatch_all [] rest context) as [news| |]; try reflexivity.
    rewrite !bind_Ok. now rewrite app_assoc.
Qed.

Lemma realize_dispatch_all fuel nodes context :
  ∀ seq c tr,
    dispatch_all [] nodes context = Ok seq →
    realize (S fuel) seq c tr = render_each (S fuel) nodes context c tr.
Proof.
  induction nodes as [|node rest IH]; intros seq c tr H; cbn [dispatch_all] in H.
  - inversion H; subst. reflexivity.
  - destruct (traverse [] node context) as [new| |] eqn:Hnode; try discriminate.
    rewrite bind_Ok, dispatch_all_from_nil in H.
    destruct (dispatch_all [] rest context) as [news| |] eqn:Hrest; try discriminate.
    rewrite bind_Ok in H. inversion H; subst. clear H.
    cbn [render_each]. unfold mbind at 1, eff_bind at 1, lift at 1. rewrite Hnode.
    unfold mbind at 1, eff_bind at 1.
    rewrite !realize_S, walk_app.
    destruct (walk (realize_source (realize fuel) fuel) new c tr)
      as [[[out c1]| |] tr1]; try reflexivity.
    rewrite <- realize_S, (IH news c1 tr1 eq_refl).
    unfold mbind, eff_bind, mret, eff_ret.
    destruct (render_each (S fuel) rest context c1 tr1) as [[[outs c2]| |] tr2];
      reflexivity.
Qed.

(** C4: the children of an element are dispatched in the order of the
    depth-first, left-to-right flattening of the nested NodeLists, and
    their output comes in that order: [[A, B], C] is dispatched as A, then
    B, then C; an empty list and absent children dispatch nothing. *)
Theorem children_dispatched_in_preorder seq context :
  (∀ children,
     renderChildren seq children context = dispatch_all seq (flatten children) context)
  ∧ (∀ children seq',
       renderChildren [] children context = Ok seq' →
       ∀ fuel c tr,
         realize (S fuel) seq' c tr
         = render_each (S fuel) (flatten children) context c tr)
  ∧ (∀ A B C, instanceof_Array A = false → instanceof_Array B = false →
       instanceof_Array C = false →
       renderChildren seq (VArr [VArr [A; B]; C]) context
       = traverse seq A context ≫= λ seq1,
         traverse seq1 B context ≫= λ seq2,
         traverse seq2 C context)
  ∧ renderChildren seq (VArr []) context = Ok seq
  ∧ renderChildren seq VUndefined context = Ok seq
  ∧ renderChildren seq VNull context = Ok seq.
Proof.
  assert (∀ seq children,
     renderChildren seq children context = dispatch_all seq (flatten children) context) as Hflat.
  { clear seq. intros seq children. unfold renderChildren.
    destruct (truthy children) eqn:Ht; simpl.
    - destruct children; try discriminate;
        try (cbn [flatten dispatch_all];
             match goal with |- ?t = _ => destruct t end; reflexivity).
      apply renderChildrenArray_flatten.
    - destruct children; try discriminate; cbn [flatten dispatch_all];
        rewrite traverse_falsy by exact Ht; reflexivity. }
  split; [apply Hflat|]. split; [|split; [|repeat split]].
  - intros children seq' Hseq' fuel c tr. rewrite Hflat in Hseq'.
    now apply realize_dispatch_all.
  - intros A B C HA HB HC. rewrite Hflat.
    replace (flatten (VArr [VArr [A; B]; C])) with [A; B; C].
    + cbn [dispatch_all].
      destruct (traverse seq A context) as [seq1| |]; [|reflexivity..].
      rewrite !bind_Ok.
      destruct (traverse seq1 B context) as [seq2| |]; [|reflexivity..].
      rewrite !bind_Ok.
      destruct (traverse seq2 C context); reflexivity.
    + destruct A, B, C; try discriminate; reflexivity.
Qed.

Lemma get_prop_field v k x :
  get_prop v k = Ok x → ∀ k', get_prop v k' = Ok (field v k').
Proof. intros H k'. unfold field. destruct v; try discriminate; reflexivity. Qed.

Lemma truthy_get_prop v k : truthy v = true → get_prop v k = Ok (field v k).
Proof. intros H. unfold field. destruct v; try discriminate; reflexivity. Qed.

(** C5: between the opening and the closing tag, [renderNode] appends
    exactly one source.  When [dangerouslySetInnerHTML] is set it is the
    text of [__html], put out as it is, and nothing is registered for the
    children, whatever they are; otherwise it is the delegation that runs
    [renderChildren] on [props.children] under the same context. *)
Theorem element_raw_html_or_children seq node props raw context :
  get_prop node "props" = Ok props →
  get_prop props "dangerouslySetInnerHTML" = Ok raw →
  ∃ inner : source,
    renderNode seq node context
    = Ok (seq ++ [Emit (λ _, "<" +:+ ToString (field node "type")); Emit (λ _, renderAttrs props);
                  Emit (λ _, REACT_ID); Emit (λ _, ">"); inner;
                  Emit (λ _, "</" +:+ ToString (field node "type") +:+ ">")])
    ∧ (truthy raw = true →
         ∃ fn, inner = Emit fn
           ∧ fn tt = ToString (js_or (field raw "__html") (VStr ""))
           ∧ ∀ fuel c tr,
               realize (S fuel)
                 [Emit (λ _, "<" +:+ ToString (field node "type")); Emit (λ _, renderAttrs props);
                  Emit (λ _, REACT_ID); Emit (λ _, ">"); inner;
                  Emit (λ _, "</" +:+ ToString (field node "type") +:+ ">")] c tr
               = (Ok (["<" +:+ ToString (field node "type"); renderAttrs props; REACT_ID; ">";
                       ToString (js_or (field raw "__html") (VStr ""));
                       "</" +:+ ToString (field node "type") +:+ ">"], c), tr))
    ∧ (truthy raw = false →
         inner = Delegate (RenderChildrenOf node context)
         ∧ ∀ sub, run_thunk (RenderChildrenOf node context) sub
                  = renderChildren sub (field props "children") context).
Proof.
  intros Hprops Hraw.
  unfold renderNode. rewrite Hprops, bind_Ok, Hraw, bind_Ok.
  unfold emit, delegate.
  destruct (truthy raw) eqn:Ht.
  - eexists. split; [rewrite <- !app_assoc; reflexivity|].
    split; [|discriminate]. intros _. eexists. split; [reflexivity|].
    rewrite (truthy_get_prop raw "__html" Ht). split; [reflexivity|].
    intros fuel c tr. reflexivity.
  - eexists. split; [rewrite <- !app_assoc; reflexivity|].
    split; [discriminate|]. intros _. split; [reflexivity|].
    intros sub. unfold run_thunk.
    now rewrite Hprops, bind_Ok, (get_prop_field _ _ _ Hraw "children"), bind_Ok.
Qed.

(** C9: when [dangerouslySetInnerHTML] is set and its [__html] is absent or
    falsy, the segment between the tags is the empty string: [renderNode]
    returns, and what it appended realizes to the opening tag, the empty
    string and the closing tag, without looking at the children. *)
Theorem raw_html_falsy_is_empty seq node props raw context fuel c tr :
  get_prop node "props" = Ok props →
  get_prop props "dangerouslySetInnerHTML" = Ok raw →
  truthy raw = true →
  truthy (field raw "__html") = false →
  ∃ new : sequence,
    renderNode seq node context = Ok (seq ++ new)
    ∧ realize (S fuel) new c tr
      = (Ok (["<" +:+ ToString (field node "type"); renderAttrs props; REACT_ID; ">"; "";
              "</" +:+ ToString (field node "type") +:+ ">"], c), tr).
Proof.
  intros Hprops Hraw Ht Hhtml.
  unfold renderNode. rewrite Hprops, bind_Ok, Hraw, bind_Ok, Ht.
  unfold emit. eexists. split; [rewrite <- !app_assoc; reflexivity|].
  cbn. unfold mret, eff_ret, mbind, eff_bind. cbn.
  rewrite (truthy_get_prop raw "__html" Ht). unfold js_or. now rewrite Hhtml.
Qed.

(** An Element and a ComponentRef are registered through
    [delegateCached], under their own reference. *)
Lemma traverse_delegates_cached node context :
  shape_of node = ElementShape ∨ shape_of node = ComponentRefShape →
  ∃ fn r, identity node = Some r
    ∧ ∀ seq, traverse seq node context = Ok (seq ++ [DelegateCached node fn]).
Proof.
  intros Hshape.
  destruct node as [ | | [|] | n | s | name | items | r fields ];
    try (destruct Hshape; discriminate).
  unfold shape_of, field in Hshape. unfold traverse.
  cbn [truthy negb typeof get_prop] in *.
  destruct (decide (typeof (lookup_field "type" fields) = TString)) as [Hty|Hty].
  - exists (RenderNodeIn context), r. split; [reflexivity|].
    intros seq. rewrite bind_Ok. now destruct (decide _).
  - exists (EvalComponentIn context), r. split; [reflexivity|].
    intros seq. rewrite bind_Ok. destruct (decide _); [contradiction|].
    rewrite bind_Ok.
    destruct (truthy (lookup_field "$$typeof" fields)); [reflexivity|].
    destruct Hshape; discriminate.
Qed.

(** C8: an Element or a ComponentRef is registered through
    [delegateCached].  Once it has been realized, every later encounter of
    the same reference in the pass, under whatever context, gives the
    segments of the first encounter and leaves the trace as it is, so that
    no constructor, hook or render runs again; in particular a sequence
    that meets the node a second time puts out the same segments at both
    positions. *)
Theorem cached_node_reused node context :
  shape_of node = ElementShape ∨ shape_of node = ComponentRefShape →
  ∃ fn,
    (∀ seq, traverse seq node context = Ok (seq ++ [DelegateCached node fn]))
    ∧ ∀ fuel c tr out c1 tr1,
        realize_source (realize fuel) fuel (DelegateCached node fn) c tr
        = (Ok (out, c1), tr1) →
        (∀ fuel' seq out2 c2 tr2,
           realize fuel' seq c1 tr1 = (Ok (out2, c2), tr2) →
           ∀ sub fuel'' fn' tr3,
             realize_source sub fuel'' (DelegateCached node fn') c2 tr3
             = (Ok (out, c2), tr3))
        ∧ (∀ between fn' out2 c2 tr2,
             realize (S fuel) between c1 tr1 = (Ok (out2, c2), tr2) →
             realize (S fuel)
               (DelegateCached node fn :: between ++ [DelegateCached node fn']) c tr
             = (Ok (out ++ out2 ++ out, c2), tr2)).
Proof.
  intros Hshape.
  destruct (traverse_delegates_cached node context Hshape) as (fn & r & Hr & Htraverse).
  exists fn. split; [exact Htraverse|].
  intros fuel c tr out c1 tr1 Hfirst.
  assert (cached c1 node = Some out) as Hstored
    by (eapply realize_source_stores; eauto).
  assert (∀ fuel' seq out2 c2 tr2,
     realize fuel' seq c1 tr1 = (Ok (out2, c2), tr2) →
     ∀ sub fuel'' fn' tr3,
       realize_source sub fuel'' (DelegateCached node fn') c2 tr3
       = (Ok (out, c2), tr3)) as Hlater.
  { intros fuel' seq out2 c2 tr2 Hseq sub fuel'' fn' tr3.
    apply realize_source_hit. eapply realize_keeps; eauto. }
  split; [exact Hlater|].
  intros between fn' out2 c2 tr2 Hbetween.
  rewrite realize_S, walk_cons, Hfirst, walk_app.
  rewrite realize_S in Hbetween. rewrite Hbetween.
  rewrite walk_cons, (Hlater _ _ _ _ _ (eq_trans (realize_S _ _ _ _) Hbetween)).
  cbn [walk]. unfold mret, eff_ret. now rewrite app_nil_r.
Qed.

(** *** The wait of [evalComponent] *)

Lemma loopWhile_done fuel promise state tr :
  loopWhile fuel promise true state tr = (Ok (true, state), tr).
Proof. destruct fuel; reflexivity. Qed.

Lemma loopWhile_step fuel promise state tr :
  loopWhile (S fuel) promise false state tr
  = let '(promise', done', state') := turn promise false state in
    loopWhile fuel promise' done' state' (tr ++ [Turn]).
Proof.
  cbn [loopWhile negb]. unfold mbind, eff_bind, log.
  destruct (turn promise false state) as [[promise' done'] state']. reflexivity.
Qed.

Lemma loopWhile_settles p :
  ∀ state n state' fuel tr,
    settle p state = Some (n, state') → (n ≤ fuel)%nat →
    loopWhile fuel (Some p) false state tr
    = (Ok (true, state'), tr ++ replicate n Turn).
Proof.
  induction p as [ | reason | sets next IH | ]; intros state n state' fuel tr Hs Hle;
    cbn [settle] in Hs; try discriminate.
  - inversion Hs; subst. destruct fuel as [|fuel]; [lia|].
    rewrite loopWhile_step. cbn [turn]. now rewrite loopWhile_done.
  - destruct (settle next (foldl syncSetState state sets)) as [[m s]|] eqn:Hn;
      try discriminate.
    cbn in Hs. inversion Hs; subst.
    destruct fuel as [|fuel]; [lia|].
    rewrite loopWhile_step. cbn [turn].
    rewrite (IH _ _ _ fuel _ Hn) by lia.
    now rewrite <- app_assoc.
Qed.

Lemma loopWhile_blocks p :
  ∀ state fuel tr,
    (∀ n state', settle p state = Some (n, state') → (fuel < n)%nat) →
    loopWhile fuel (Some p) false state tr = (Diverge, tr ++ replicate fuel Turn).
Proof.
  induction p as [ | reason | sets next IH | ]; intros state fuel tr Hs.
  - specialize (Hs 1 state eq_refl). assert (fuel = 0) as -> by lia.
    cbn. now rewrite app_nil_r.
  - clear Hs. revert tr. induction fuel as [|fuel IHf]; intros tr.
    + cbn. now rewrite app_nil_r.
    + rewrite loopWhile_step. cbn [turn]. rewrite IHf. now rewrite <- app_assoc.
  - destruct fuel as [|fuel].
    + cbn. now rewrite app_nil_r.
    + rewrite loopWhile_step. cbn [turn]. rewrite IH.
      * now rewrite <- app_assoc.
      * intros n state' Hn. cbn [settle] in Hs.
        specialize (Hs (S n) state'). rewrite Hn in Hs. specialize (Hs eq_refl). lia.
  - clear Hs. revert tr. induction fuel as [|fuel IHf]; intros tr.
    + cbn. now rewrite app_nil_r.
    + rewrite loopWhile_step. cbn [turn]. rewrite IHf. now rewrite <- app_assoc.
Qed.

Lemma ends_rejected_settle p state : ends_rejected p = true → settle p state = None.
Proof.
  revert state. induction p as [ | reason | sets next IH | ]; intros state H;
    try discriminate; [reflexivity|].
  cbn in *. now rewrite IH.
Qed.

(** [evalComponent] on a class whose hook returns a thenable, up to the
    wait. *)
Lemma evalComponent_hook_thenable fuel seq node context tr
    name c props hook state0 res state1 method p :
  get_prop node "type" = Ok (VFun name) →
  get_prop node "props" = Ok props →
  fenv name = FClass c →
  construct c props (getContext (VFun name) context) = Normal state0 →
  componentWillMount c = Some hook →
  run_script (hook props (getContext (VFun name) context) state0) state0
  = Ok (res, state1) →
  truthy res = true →
  get_prop res "then" = Ok (VFun method) →
  fenv method = FThen p →
  evalComponent fuel seq node context tr
  = match loopWhile fuel (Some p) false state1
            (tr ++ [Constructed name; WillMount name]) with
    | (Ok (true, state2), tr2) =>
        (match render c props (getContext (VFun name) context) state2 with
         | Normal rendered =>
             traverse seq rendered
               (getChildContext (VFun name)
                  (OfInstance {| inst_class := name; inst_props := props;
                                 inst_context := getContext (VFun name) context;
                                 inst_state := state2 |}) context)
         | Abrupt e => Throw (Thrown e)
         end, tr2 ++ [Rendered name])
    | (Ok (false, _), tr2) => (Ok seq, tr2)
    | (Throw e, tr2) => (Throw e, tr2)
    | (Diverge, tr2) => (Diverge, tr2)
    end.
Proof.
  intros Hty Hprops Hcls Hnew Hhook Hrun Hres Hthen Hmethod.
  unfold evalComponent.
  unfold mbind at 1, eff_bind at 1, lift at 1. rewrite Hty.
  unfold mbind at 1, eff_bind at 1, lift at 1. rewrite Hprops.
  unfold mbind at 1, eff_bind at 1, lift at 1, isReactComponent. rewrite Hcls.
  cbn [negb].
  unfold mbind at 1, eff_bind at 1, new. rewrite Hcls.
  unfold mbind at 1, eff_bind at 1, log at 1.
  unfold mbind at 1, eff_bind at 1, of_completion at 1. rewrite Hnew. unfold lift at 1.
  unfold mret at 1, eff_ret at 1.
  rewrite Hhook.
  unfold mbind at 1, eff_bind at 1, call_componentWillMount.
  unfold mbind at 1, eff_bind at 1, log at 1. cbn [inst_class inst_props inst_context inst_state].
  unfold mbind at 1, eff_bind at 1, lift at 1. rewrite Hrun.
  unfold mret at 1, eff_ret at 1.
  rewrite Hres.
  unfold mbind at 1, eff_bind at 1, lift at 1. rewrite Hthen. cbn [truthy].
  rewrite Hres.
  unfold mbind at 1, eff_bind at 1.
  unfold mbind at 1, eff_bind at 1, call_then.
  unfold mbind at 1, eff_bind at 1, lift at 1. rewrite Hthen, Hmethod.
  unfold mret at 1, eff_ret at 1. unfold mret at 1, eff_ret at 1.
  unfold mbind at 1, eff_bind at 1. cbn [with_state inst_class inst_props inst_context inst_state].
  rewrite <- app_assoc. cbn [app].
  destruct (loopWhile fuel (Some p) false state1 (tr ++ [Constructed name; WillMount name]))
    as [[[[|] state2]| |] tr2]; try reflexivity.
  unfold mbind at 1, eff_bind at 1, call_render.
  unfold mbind at 1, eff_bind at 1, log at 1.
  cbn [with_state inst_class inst_props inst_context inst_state].
  unfold of_completion.
  destruct (render c props (getContext (VFun name) context) state2); reflexivity.
Qed.

(** C7: when the hook of a class returns a thenable, [render] is called
    only after the callback given to [then] has run: with fewer turns of
    the event loop than the thenable needs, [evalComponent] is still in its
    wait and has not rendered; once the turns are there it renders with
    [this.state] as the hook's [setState] calls (and those of the
    asynchronous work) left it, and traverses the result.  A thenable that
    never settles keeps it waiting whatever the number of turns. *)
Theorem render_waits_for_hook_promise fuel seq node context tr
    name c props hook state0 res state1 method p :
  get_prop node "type" = Ok (VFun name) →
  get_prop node "props" = Ok props →
  fenv name = FClass c →
  construct c props (getContext (VFun name) context) = Normal state0 →
  componentWillMount c = Some hook →
  run_script (hook props (getContext (VFun name) context) state0) state0
  = Ok (res, state1) →
  truthy res = true →
  get_prop res "then" = Ok (VFun method) →
  fenv method = FThen p →
  match settle p state1 with
  | Some (n, state2) =>
      ((fuel < n)%nat →
         evalComponent fuel seq node context tr
         = (Diverge,
            tr ++ [Constructed name; WillMount name] ++ replicate fuel Turn))
      ∧ ((n ≤ fuel)%nat →
         evalComponent fuel seq node context tr
         = (match render c props (getContext (VFun name) context) state2 with
            | Normal rendered =>
                traverse seq rendered
                  (getChildContext (VFun name)
                     (OfInstance {| inst_class := name; inst_props := props;
                                    inst_context := getContext (VFun name) context;
                                    inst_state := state2 |}) context)
            | Abrupt e => Throw (Thrown e)
            end,
            tr ++ [Constructed name; WillMount name] ++ replicate n Turn
               ++ [Rendered name]))
  | None =>
      evalComponent fuel seq node context tr
      = (Diverge, tr ++ [Constructed name; WillMount name] ++ replicate fuel Turn)
  end.
Proof.
  intros Hty Hprops Hcls Hnew Hhook Hrun Hres Hthen Hmethod.
  rewrite (evalComponent_hook_thenable fuel seq node context tr
             name c props hook state0 res state1 method p) by assumption.
  destruct (settle p state1) as [[n state2]|] eqn:Hs.
  - split; intros Hfuel.
    + rewrite loopWhile_blocks.
      * now rewrite <- app_assoc.
      * intros m s Hm. rewrite Hs in Hm. inversion Hm; subst. exact Hfuel.
    + rewrite (loopWhile_settles p state1 n state2 fuel _ Hs Hfuel).
      now rewrite <- !app_assoc.
  - rewrite loopWhile_blocks.
    + now rewrite <- app_assoc.
    + intros m s Hm. rewrite Hs in Hm. discriminate.
Qed.

(** C1: when the thenable returned by the hook settles with a rejection,
    the callback of line 91 never runs, [done] stays [false] and the wait
    of line 96 does not end: whatever the number of turns of the event
    loop, [evalComponent] has neither thrown nor returned, and [render] has
    not been called. *)
Theorem rejected_hook_promise_waits_forever fuel seq node context tr
    name c props hook state0 res state1 method p :
  get_prop node "type" = Ok (VFun name) →
  get_prop node "props" = Ok props →
  fenv name = FClass c →
  construct c props (getContext (VFun name) context) = Normal state0 →
  componentWillMount c = Some hook →
  run_script (hook props (getContext (VFun name) context) state0) state0
  = Ok (res, state1) →
  truthy res = true →
  get_prop res "then" = Ok (VFun method) →
  fenv method = FThen p →
  ends_rejected p = true →
  evalComponent fuel seq node context tr
  = (Diverge, tr ++ [Constructed name; WillMount name] ++ replicate fuel Turn).
Proof.
  intros Hty Hprops Hcls Hnew Hhook Hrun Hres Hthen Hmethod Hrej.
  rewrite (evalComponent_hook_thenable fuel seq node context tr
             name c props hook state0 res state1 method p) by assumption.
  rewrite loopWhile_blocks.
  - now rewrite <- app_assoc.
  - intros m s Hm. rewrite (ends_rejected_settle p state1 Hrej) in Hm. discriminate.
Qed.

Lemma get_prop_field_total v k : nullish v = false → get_prop v k = Ok (field v k).
Proof. intros H. unfold field. destruct v; try discriminate; reflexivity. Qed.

(** ** Further properties of the traversal *)

Lemma renderChildren_flatten seq children context :
  renderChildren seq children context = dispatch_all seq (flatten children) context.
Proof.
  unfold renderChildren.
  destruct (truthy children) eqn:Ht; simpl.
  - destruct children; try discriminate;
      try (cbn [flatten dispatch_all];
           match goal with |- ?t = _ => destruct t end; reflexivity).
    apply renderChildrenArray_flatten.
  - destruct children; try discriminate; cbn [flatten dispatch_all];
      rewrite traverse_falsy by exact Ht; reflexivity.
Qed.

Lemma traverse_by_shape seq node context :
  traverse seq node context
  = match shape_of node with
    | Unknown => Throw (unknown_node node)
    | _ => Ok (seq ++ registered context node)
    end.
Proof.
  unfold registered.
  destruct node as [ | | [|] | n | s | name | items | r fields ];
    try reflexivity; cbn [shape_of].
  - unfold traverse. cbn [truthy negb]. now rewrite app_nil_r.
  - unfold traverse. cbn [truthy negb]. now rewrite app_nil_r.
  - unfold traverse. cbn [truthy negb]. now rewrite app_nil_r.
  - unfold traverse. destruct (truthy (VNum n)); cbn [negb typeof];
      [reflexivity | now rewrite app_nil_r].
  - unfold traverse. destruct (truthy (VStr s)); cbn [negb typeof];
      [reflexivity | now rewrite app_nil_r].
  - unfold traverse, unknown_node, field. cbn [truthy negb typeof get_prop].
    rewrite bind_Ok.
    destruct (decide (typeof (lookup_field "type" fields) = TString)); [reflexivity|].
    rewrite bind_Ok.
    destruct (truthy (lookup_field "$$typeof" fields)); reflexivity.
Qed.

Lemma dispatch_all_known context leaves :
  ∀ seq, forallb known leaves = true →
    dispatch_all seq leaves context
    = Ok (seq ++ flat_map (registered context) leaves).
Proof.
  induction leaves as [|leaf leaves IH]; intros seq Hknown; cbn [dispatch_all flat_map].
  - now rewrite app_nil_r.
  - cbn [forallb] in Hknown. apply andb_prop in Hknown as [Hleaf Hleaves].
    rewrite traverse_by_shape. unfold known in Hleaf.
    destruct (shape_of leaf); try discriminate;
      rewrite bind_Ok, IH by exact Hleaves; now rewrite <- app_assoc.
Qed.

Lemma renderChildrenArray_append seq l1 l2 context :
  renderChildrenArray seq (l1 ++ l2) context
  = renderChildrenArray seq l1 context ≫= λ seq', renderChildrenArray seq' l2 context.
Proof.
  revert seq. induction l1 as [|c l1 IH]; intros seq; [reflexivity|].
  cbn [app renderChildrenArray].
  destruct (renderChild seq c context) as [seq'| |]; [|reflexivity..].
  rewrite !bind_Ok. apply IH.
Qed.

(** X1: [traverse] by the shape of the node.  A node of an unknown shape
    makes it throw, whatever the sequence; a node of a known shape makes it
    return the sequence it was given with the sources of the dispatch table
    appended: nothing for an absent node, an empty string, [0] and [NaN],
    one [emit] for another string (escaped) or number, one [delegateCached]
    under the node's own reference and the given context for an Element
    (to [renderNode]) or a ComponentRef (to [evalComponent]).  What was
    already registered is kept, and at most one source is added. *)
Theorem traverse_dispatch_table seq node context :
  traverse seq node context
  = (if known node then Ok (seq ++ registered context node)
     else Throw (unknown_node node))
  ∧ (length (registered context node) ≤ 1)%nat.
Proof.
  split.
  - rewrite traverse_by_shape. unfold known. now destruct (shape_of node).
  - unfold registered. destruct (shape_of node); cbn; try lia;
      destruct (truthy node); cbn; lia.
Qed.

(** X2: when every leaf of the children is of a known shape,
    [renderChildren] returns the sequence with the sources of the leaves
    appended in pre-order, one leaf after the other; a falsy leaf adds
    nothing, so the number of sources added is the number of truthy
    leaves. *)
Theorem renderChildren_registers_leaves seq children context :
  forallb known (flatten children) = true →
  renderChildren seq children context
  = Ok (seq ++ flat_map (registered context) (flatten children))
  ∧ length (flat_map (registered context) (flatten children))
    = length (List.filter truthy (flatten children)).
Proof.
  intros Hknown. split.
  - rewrite renderChildren_flatten. now apply dispatch_all_known.
  - induction (flatten children) as [|leaf leaves IH]; [reflexivity|].
    cbn [forallb] in Hknown. apply andb_prop in Hknown as [Hleaf Hleaves].
    cbn [flat_map List.filter]. rewrite length_app, (IH Hleaves).
    unfold registered, known in *.
    destruct leaf as [ | | [|] | n | s | name | items | r fields ];
      try discriminate; try reflexivity; cbn [shape_of] in *.
    + destruct (truthy (VNum n)); reflexivity.
    + destruct (truthy (VStr s)); reflexivity.
    + cbn [truthy]. repeat case_match; try discriminate; reflexivity.
Qed.

(** X3: [renderChildren] stops at the first leaf, in pre-order, that is of
    an unknown shape, and throws the TypeError of line 142 for that leaf;
    what the leaves before it registered is lost with the exception. *)
Theorem renderChildren_first_unknown seq children context before bad after :
  flatten children = before ++ bad :: after →
  forallb known before = true →
  known bad = false →
  renderChildren seq children context = Throw (unknown_node bad).
Proof.
  intros Hflat Hbefore Hbad.
  rewrite renderChildren_flatten, Hflat, dispatch_all_app.
  rewrite dispatch_all_known by exact Hbefore. rewrite bind_Ok.
  cbn [dispatch_all]. rewrite traverse_by_shape. unfold known in Hbad.
  now destruct (shape_of bad).
Qed.

(** X4: [renderChildrenArray] on two lists one after the other is
    [renderChildrenArray] on the first and then, on the sequence it
    returns, on the second; an exception in the first part ends it. *)
Theorem renderChildrenArray_composes seq l1 l2 context :
  renderChildrenArray seq (l1 ++ l2) context
  = match renderChildrenArray seq l1 context with
    | Ok seq' => renderChildrenArray seq' l2 context
    | Throw e => Throw e
    | Diverge => Diverge
    end.
Proof.
  rewrite renderChildrenArray_append.
  now destruct (renderChildrenArray seq l1 context).
Qed.

(** X5: a nested array among the children renders as if its items stood
    in its place: the grouping of children into arrays does not matter. *)
Theorem renderChildren_splice seq l1 nested l2 context :
  renderChildren seq (VArr (l1 ++ VArr nested :: l2)) context
  = renderChildren seq (VArr (l1 ++ nested ++ l2)) context.
Proof.
  unfold renderChildren. cbn [truthy negb].
  rewrite !renderChildrenArray_append.
  destruct (renderChildrenArray seq l1 context) as [seq'| |]; [|reflexivity..].
  rewrite !bind_Ok, renderChildrenArray_cons. cbn [instanceof_Array].
  now rewrite renderChildrenArray_append.
Qed.

(** X6: falsy children ([null], [undefined], [false], [""], [0], [NaN])
    are skipped: [renderChildrenArray] on a list is [renderChildrenArray]
    on the list without them. *)
Theorem renderChildrenArray_skips_falsy seq children context :
  renderChildrenArray seq children context
  = renderChildrenArray seq (List.filter truthy children) context.
Proof.
  revert seq. induction children as [|c children IH]; intros seq; [reflexivity|].
  cbn [List.filter]. destruct (truthy c) eqn:Ht.
  - cbn [renderChildrenArray].
    destruct (renderChild seq c context); [|reflexivity..].
    rewrite !bind_Ok. apply IH.
  - cbn [renderChildrenArray].
    assert (renderChild seq c context = Ok seq) as ->.
    { destruct c; try discriminate; cbn [renderChild];
        now apply traverse_falsy. }
    rewrite bind_Ok. apply IH.
Qed.

(** X7: [renderNode] on a node that has no [props] throws a TypeError at
    line 44, where [node.props.dangerouslySetInnerHTML] is read; so does
    [renderNode] on [undefined] or [null]. *)
Theorem renderNode_without_props seq node context :
  (nullish node = true →
     renderNode seq node context
     = Throw (TypeError ("Cannot read property 'props' of " +:+ ToString node)))
  ∧ (nullish node = false → nullish (field node "props") = true →
     renderNode seq node context
     = Throw (TypeError ("Cannot read property 'dangerouslySetInnerHTML' of "
                         +:+ ToString (field node "props")))).
Proof.
  split.
  - intros Hnode. destruct node; try discriminate; reflexivity.
  - intros Hnode Hprops. unfold renderNode.
    rewrite (get_prop_field_total node "props") by exact Hnode.
    rewrite bind_Ok. destruct (field node "props"); try discriminate; reflexivity.
Qed.

(** *** [evalComponent] off the waiting path *)

Ltac eff_step := unfold mbind at 1, eff_bind at 1.

(** X8: a function component is called once, with the props of the node
    and the context [getContext] gives; what it returns is traversed under
    the context [getChildContext] gives, and what it throws is thrown on.
    The event loop is not touched. *)
Theorem evalComponent_function_component fuel seq node context tr name props f :
  get_prop node "type" = Ok (VFun name) →
  get_prop node "props" = Ok props →
  fenv name = FComponent f →
  evalComponent fuel seq node context tr
  = (match f props (getContext (VFun name) context) with
     | Normal result =>
         traverse seq result
           (getChildContext (VFun name) (OfResult result) context)
     | Abrupt e => Throw (Thrown e)
     end, tr ++ [Called name]).
Proof.
  intros Hty Hprops Hfn. unfold evalComponent.
  eff_step. unfold lift at 1. rewrite Hty.
  eff_step. unfold lift at 1. rewrite Hprops.
  eff_step. unfold lift at 1, isReactComponent. rewrite Hfn. cbn [negb].
  eff_step. unfold call. rewrite Hfn.
  eff_step. unfold log at 1. unfold of_completion, lift.
  destruct (f props (getContext (VFun name) context)); reflexivity.
Qed.

(** [evalComponent] on a class, up to the hook. *)
Lemma evalComponent_class fuel seq node context tr name props c :
  get_prop node "type" = Ok (VFun name) →
  get_prop node "props" = Ok props →
  fenv name = FClass c →
  evalComponent fuel seq node context tr
  = match construct c props (getContext (VFun name) context) with
    | Abrupt e => (Throw (Thrown e), tr ++ [Constructed name])
    | Normal state0 =>
        let instance :=
          {| inst_class := name; inst_props := props;
             inst_context := getContext (VFun name) context;
             inst_state := state0 |} in
        (('(res, instance) ←
            match componentWillMount c with
            | Some hook => call_componentWillMount hook instance
            | None => mret (VNull, instance)
            end;
          method ← lift (if truthy res then get_prop res "then" else Ok res);
          let promise := if truthy method then res else VNull in
          '(pending, done) ←
            (if truthy promise then p ← call_then promise; mret (Some p, false)
             else mret (None, true));
          '(done, state) ← loopWhile fuel pending done (inst_state instance);
          if (done : bool) then
            let instance := with_state instance state in
            let childContext :=
              getChildContext (VFun name) (OfInstance instance) context in
            rendered ← call_render c instance;
            lift (traverse seq rendered childContext)
          else mret seq) : eff sequence) (tr ++ [Constructed name])
    end.
Proof.
  intros Hty Hprops Hcls. unfold evalComponent.
  eff_step. unfold lift at 1. rewrite Hty.
  eff_step. unfold lift at 1. rewrite Hprops.
  eff_step. unfold lift at 1, isReactComponent. rewrite Hcls. cbn [negb].
  eff_step. unfold new. rewrite Hcls.
  eff_step. unfold log at 1.
  eff_step. unfold of_completion at 1.
  destruct (construct c props (getContext (VFun name) context)); reflexivity.
Qed.

(** The end of [evalComponent] when there is nothing to wait for. *)
Ltac renders_at_once :=
  eff_step; rewrite loopWhile_done;
  eff_step; unfold call_render; eff_step; unfold log at 1;
  cbn [with_state inst_class inst_props inst_context inst_state];
  unfold of_completion, lift; rewrite <- ?app_assoc;
  match goal with
  | |- context [render ?c ?p ?x ?s] => destruct (render c p x s)
  end; reflexivity.

(** X9: a class without [componentWillMount] is constructed and rendered
    at once, with the state its constructor left: no turn of the event loop
    is taken, whatever their number, and [render]'s result is traversed
    under the child context (or its exception thrown on). *)
Theorem evalComponent_without_hook fuel seq node context tr name props c state0 :
  get_prop node "type" = Ok (VFun name) →
  get_prop node "props" = Ok props →
  fenv name = FClass c →
  construct c props (getContext (VFun name) context) = Normal state0 →
  componentWillMount c = None →
  evalComponent fuel seq node context tr
  = (match render c props (getContext (VFun name) context) state0 with
     | Normal rendered =>
         traverse seq rendered
           (getChildContext (VFun name)
              (OfInstance {| inst_class := name; inst_props := props;
                             inst_context := getContext (VFun name) context;
                             inst_state := state0 |}) context)
     | Abrupt e => Throw (Thrown e)
     end, tr ++ [Constructed name; Rendered name]).
Proof.
  intros Hty Hprops Hcls Hnew Hhook.
  rewrite (evalComponent_class fuel seq node context tr name props c) by assumption.
  rewrite Hnew, Hhook. cbv zeta.
  eff_step. unfold mret at 1, eff_ret at 1.
  eff_step. unfold lift at 1. cbn [truthy].
  eff_step. unfold mret at 1, eff_ret at 1.
  cbn [inst_state].
  renders_at_once.
Qed.

(** X10: when [componentWillMount] returns something that is no thenable
    (a falsy value, or a value without a truthy [then]), [render] is called
    at once, without a turn of the event loop, and sees [this.state] as the
    hook's [setState] calls left it. *)
Theorem evalComponent_hook_not_thenable fuel seq node context tr
    name props c state0 hook res state1 :
  get_prop node "type" = Ok (VFun name) →
  get_prop node "props" = Ok props →
  fenv name = FClass c →
  construct c props (getContext (VFun name) context) = Normal state0 →
  componentWillMount c = Some hook →
  run_script (hook props (getContext (VFun name) context) state0) state0
  = Ok (res, state1) →
  truthy res && truthy (field res "then") = false →
  evalComponent fuel seq node context tr
  = (match render c props (getContext (VFun name) context) state1 with
     | Normal rendered =>
         traverse seq rendered
           (getChildContext (VFun name)
              (OfInstance {| inst_class := name; inst_props := props;
                             inst_context := getContext (VFun name) context;
                             inst_state := state1 |}) context)
     | Abrupt e => Throw (Thrown e)
     end, tr ++ [Constructed name; WillMount name; Rendered name]).
Proof.
  intros Hty Hprops Hcls Hnew Hhook Hrun Hres.
  rewrite (evalComponent_class fuel seq node context tr name props c) by assumption.
  rewrite Hnew, Hhook. cbv zeta.
  eff_step. unfold call_componentWillMount.
  eff_step. unfold log at 1.
  cbn [inst_class inst_props inst_context inst_state].
  eff_step. unfold lift at 1. rewrite Hrun.
  unfold mret at 1, eff_ret at 1.
  assert (truthy (if truthy (match (if truthy res then get_prop res "then" else Ok res) with
                             | Ok m => m | _ => VUndefined end)
                  then res else VNull) = false) as Hpromise.
  { destruct (truthy res) eqn:Ht.
    - rewrite (truthy_get_prop res "then" Ht). cbn [andb] in Hres. now rewrite Hres.
    - now rewrite Ht. }
  eff_step. unfold lift at 1.
  destruct (truthy res) eqn:Ht.
  - rewrite (truthy_get_prop res "then" Ht) in *. cbn [andb] in Hres. rewrite Hres.
    cbn [truthy].
    eff_step. unfold mret at 1, eff_ret at 1.
    cbn [with_state inst_class inst_props inst_context inst_state].
    renders_at_once.
  - rewrite Ht. cbn [truthy].
    eff_step. unfold mret at 1, eff_ret at 1.
    cbn [with_state inst_class inst_props inst_context inst_state].
    renders_at_once.
Qed.

(** X11: an exception thrown by the constructor or by
    [componentWillMount] is thrown on by [evalComponent]; [render] is not
    called and the event loop is not touched. *)
Theorem evalComponent_hook_throws fuel seq node context tr name props c :
  get_prop node "type" = Ok (VFun name) →
  get_prop node "props" = Ok props →
  fenv name = FClass c →
  (∀ e, construct c props (getContext (VFun name) context) = Abrupt e →
     evalComponent fuel seq node context tr
     = (Throw (Thrown e), tr ++ [Constructed name]))
  ∧ (∀ state0 hook e,
       construct c props (getContext (VFun name) context) = Normal state0 →
       componentWillMount c = Some hook →
       run_script (hook props (getContext (VFun name) context) state0) state0
       = Throw e →
       evalComponent fuel seq node context tr
       = (Throw e, tr ++ [Constructed name; WillMount name])).
Proof.
  intros Hty Hprops Hcls.
  rewrite (evalComponent_class fuel seq node context tr name props c) by assumption.
  split.
  - intros e Hnew. now rewrite Hnew.
  - intros state0 hook e Hnew Hhook Hrun. rewrite Hnew, Hhook. cbv zeta.
    eff_step. unfold call_componentWillMount.
    eff_step. unfold log at 1.
    cbn [inst_class inst_props inst_context inst_state].
    eff_step. unfold lift at 1. rewrite Hrun. now rewrite <- app_assoc.
Qed.

(** X12: a node with the component marker whose [type] is no function
    makes [evalComponent] throw a TypeError before any user code has run. *)
Theorem evalComponent_type_not_function fuel seq node context tr ty props :
  get_prop node "type" = Ok ty →
  get_prop node "props" = Ok props →
  typeof ty ≠ TFunction →
  ∃ message,
    evalComponent fuel seq node context tr = (Throw (TypeError message), tr).
Proof.
  intros Hty Hprops Hfun. unfold evalComponent.
  eff_step. unfold lift at 1. rewrite Hty.
  eff_step. unfold lift at 1. rewrite Hprops.
  eff_step. unfold lift at 1.
  destruct ty as [ | | b | n | s | name | items | r fields ];
    try (exfalso; apply Hfun; reflexivity);
    try (eexists; reflexivity);
    cbn [isReactComponent get_prop mbind outcome_bind truthy negb].
  destruct (truthy (lookup_field "prototype" fields)) eqn:Hproto.
  - rewrite (truthy_get_prop _ "isReactComponent" Hproto). cbn [mbind outcome_bind].
    destruct (truthy (field (lookup_field "prototype" fields) "isReactComponent"));
      cbn [negb];
      eff_step; try unfold call; try unfold new; unfold lift;
      eexists; reflexivity.
  - cbn [negb]. eff_step. unfold call, lift. eexists; reflexivity.
Qed.

(** X13: when [componentWillMount] returns an object whose [then] is
    truthy but no function, calling it at line 91 throws a TypeError;
    [render] is not called. *)
Theorem evalComponent_then_not_callable fuel seq node context tr
    name props c state0 hook res state1 :
  get_prop node "type" = Ok (VFun name) →
  get_prop node "props" = Ok props →
  fenv name = FClass c →
  construct c props (getContext (VFun name) context) = Normal state0 →
  componentWillMount c = Some hook →
  run_script (hook props (getContext (VFun name) context) state0) state0
  = Ok (res, state1) →
  truthy res = true →
  truthy (field res "then") = true →
  typeof (field res "then") ≠ TFunction →
  evalComponent fuel seq node context tr
  = (Throw (TypeError "promise.then is not a function"),
     tr ++ [Constructed name; WillMount name]).
Proof.
  intros Hty Hprops Hcls Hnew Hhook Hrun Hres Hthen Hfun.
  rewrite (evalComponent_class fuel seq node context tr name props c) by assumption.
  rewrite Hnew, Hhook. cbv zeta.
  eff_step. unfold call_componentWillMount.
  eff_step. unfold log at 1.
  cbn [inst_class inst_props inst_context inst_state].
  eff_step. unfold lift at 1. rewrite Hrun.
  unfold mret at 1, eff_ret at 1.
  eff_step. unfold lift at 1. rewrite Hres.
  rewrite (truthy_get_prop res "then" Hres), Hthen, Hres.
  eff_step. eff_step. unfold call_then.
  eff_step. unfold lift at 1. rewrite (truthy_get_prop res "then" Hres).
  rewrite <- app_assoc.
  destruct (field res "then"); try reflexivity. contradiction.
Qed.

End Traverse.

(** ** The properties on the program of [Demo] *)

Abbreviation demo_traverse := (traverse Demo.htmlStringEscape Demo.functionSource).
Abbreviation demo_renderChildren :=
  (renderChildren Demo.htmlStringEscape Demo.functionSource).
Abbreviation demo_renderNode :=
  (renderNode Demo.renderAttrs Demo.REACT_ID Demo.functionSource).
Abbreviation demo_evalComponent :=
  (evalComponent Demo.htmlStringEscape Demo.getContext Demo.getChildContext
     Demo.syncSetState Demo.fenv Demo.functionSource).
Abbreviation demo_realize :=
  (realize Demo.htmlStringEscape Demo.renderAttrs Demo.REACT_ID Demo.getContext
     Demo.getChildContext Demo.syncSetState Demo.fenv Demo.functionSource).
Abbreviation demo_renderPass :=
  (renderPass Demo.htmlStringEscape Demo.renderAttrs Demo.REACT_ID Demo.getContext
     Demo.getChildContext Demo.syncSetState Demo.fenv Demo.functionSource).

(** [true] is an unknown node and fails the pass; [null] is a no-op. *)
Lemma traverse_unknown_or_absent_demo :
  (shape_of (VBool true) = Unknown
   ∧ demo_traverse [] (VBool true) VNull
     = Throw (TypeError "Unknown node of type: undefined")
   ∧ demo_renderPass 3 (VBool true) VNull []
     = (Throw (TypeError "Unknown node of type: undefined"), []))
  ∧ (shape_of VNull = Absent ∧ demo_traverse [] VNull VNull = Ok []).
Proof.
  pose proof (traverse_unknown_or_absent Demo.htmlStringEscape Demo.renderAttrs
                Demo.REACT_ID Demo.getContext Demo.getChildContext
                Demo.syncSetState Demo.fenv Demo.functionSource) as H.
  destruct (H [] (VBool true) VNull) as [Hunknown _].
  destruct (H [] VNull VNull) as [_ Habsent].
  destruct (Hunknown eq_refl) as [Hthrow Hpass].
  destruct (Habsent eq_refl) as [Hnoop _].
  split; [split; [reflexivity | split; [exact Hthrow | exact (Hpass 3 [])]]
        | split; [reflexivity | exact Hnoop]].
Defined.

(** [<i>x</i>]: the lone child ["x"] goes to [traverse]. *)
Lemma lone_child_dispatched_demo :
  demo_renderChildren [] (VStr "x") VNull = demo_traverse [] (VStr "x") VNull
  ∧ run_thunk Demo.htmlStringEscape Demo.functionSource
      (RenderChildrenOf Demo.italic VNull) []
    = demo_traverse [] (VStr "x") VNull.
Proof.
  apply (lone_child_dispatched Demo.htmlStringEscape Demo.functionSource
           [] Demo.italic (VObj 17 [("children", VStr "x")]) (VStr "x") VNull);
    reflexivity.
Defined.

(** A NodeList handed to [traverse] fails the pass, where dispatching its
    elements one by one would have registered them. *)
Lemma nodelist_at_root_fails :
  demo_traverse [] (VArr [VStr "a"; VStr "b"]) VNull
  = Throw (TypeError "Unknown node of type: undefined")
  ∧ demo_renderPass 3 (VArr [VStr "a"; VStr "b"]) VNull []
    = (Throw (TypeError "Unknown node of type: undefined"), [])
  ∧ demo_traverse [] (VArr [VStr "a"; VStr "b"]) VNull
    ≠ dispatch_all Demo.htmlStringEscape Demo.functionSource
        [] [VStr "a"; VStr "b"] VNull.
Proof. repeat split. discriminate. Qed.

(** [[["a", <i>x</i>], 7]] is dispatched as ["a"], [<i>x</i>], [7]. *)
Lemma children_dispatched_in_preorder_demo :
  demo_renderChildren [] (VArr [VArr [VStr "a"; Demo.italic]; VNum (Finite 7)]) VNull
  = demo_traverse [] (VStr "a") VNull ≫= λ seq1,
    demo_traverse seq1 Demo.italic VNull ≫= λ seq2,
    demo_traverse seq2 (VNum (Finite 7)) VNull.
Proof.
  apply (children_dispatched_in_preorder Demo.htmlStringEscape Demo.renderAttrs
           Demo.REACT_ID Demo.getContext Demo.getChildContext
           Demo.syncSetState Demo.fenv Demo.functionSource [] VNull); reflexivity.
Defined.

(** The raw content of [Demo.raw] is put out as it is; its children are
    not registered. *)
Lemma element_raw_html_or_children_demo :
  ∃ fn,
    demo_renderNode [] Demo.raw VNull
    = Ok [Emit (λ _, "<div"); Emit (λ _, ""); Emit (λ _, " data-reactid");
          Emit (λ _, ">"); Emit fn; Emit (λ _, "</div>")]
    ∧ fn tt = "<em>hi</em>".
Proof.
  destruct (element_raw_html_or_children Demo.htmlStringEscape Demo.renderAttrs
              Demo.REACT_ID Demo.getContext Demo.getChildContext
              Demo.syncSetState Demo.fenv Demo.functionSource
              [] Demo.raw (field Demo.raw "props")
              (VObj 20 [("__html", VStr "<em>hi</em>")]) VNull
              eq_refl eq_refl) as (inner & Hrender & Hraw & _).
  destruct (Hraw eq_refl) as (fn & -> & Hfn & _).
  exists fn. split; [exact Hrender | exact Hfn].
Defined.

(** [Demo.rawEmpty] has no [__html]: the inner content is the empty
    string. *)
Lemma raw_html_falsy_is_empty_demo :
  ∃ new,
    demo_renderNode [] Demo.rawEmpty VNull = Ok new
    ∧ demo_realize 1 new ∅ []
      = (Ok (["<div"; ""; " data-reactid"; ">"; ""; "</div>"], ∅), []).
Proof.
  exact (raw_html_falsy_is_empty Demo.htmlStringEscape Demo.renderAttrs
           Demo.REACT_ID Demo.getContext Demo.getChildContext
           Demo.syncSetState Demo.fenv Demo.functionSource
           [] Demo.rawEmpty (field Demo.rawEmpty "props")
           (VObj 23 []) VNull 0 ∅ [] eq_refl eq_refl eq_refl eq_refl).
Defined.

(** [<Loader/>] met twice in one sequence: the second encounter repeats the
    segments of the first, and [Loader] is constructed, mounted and
    rendered once. *)
Lemma cached_node_reused_demo :
  ∃ c2,
    demo_realize 6
      [DelegateCached Demo.loader (EvalComponentIn VNull); Emit (λ _, "-");
       DelegateCached Demo.loader (EvalComponentIn (VStr "elsewhere"))] ∅ []
    = (Ok (["<p"; ""; " data-reactid"; ">"; "{loading}"; "{ready}"; "</p>"] ++
           ["-"] ++
           ["<p"; ""; " data-reactid"; ">"; "{loading}"; "{ready}"; "</p>"], c2),
       [Constructed "Loader"; WillMount "Loader"; Turn; Turn; Rendered "Loader"]).
Proof.
  destruct (cached_node_reused Demo.htmlStringEscape Demo.renderAttrs
              Demo.REACT_ID Demo.getContext Demo.getChildContext
              Demo.syncSetState Demo.fenv Demo.functionSource
              Demo.loader VNull (or_intror eq_refl)) as (fn & Htraverse & Hreuse).
  specialize (Htraverse []). vm_compute in Htraverse. injection Htraverse as <-.
  edestruct (Hreuse 5 ∅ []) as [_ Hsame]; [vm_compute; reflexivity|].
  eexists.
  exact (Hsame [Emit (λ _, "-")] (EvalComponentIn (VStr "elsewhere")) _ _ _ eq_refl).
Defined.

(** [<Loader/>]: its promise takes two turns of the event loop.  After one
    turn [render] has not been called; after two it is called, and the
    rendered element has seen the state set by the hook. *)
Lemma render_waits_for_hook_promise_demo :
  demo_evalComponent 1 [] Demo.loader VNull []
  = (Diverge, [Constructed "Loader"; WillMount "Loader"; Turn])
  ∧ demo_evalComponent 2 [] Demo.loader VNull []
    = (Ok [DelegateCached
             (VObj 3 [("type", VStr "p");
                      ("props", VObj 4 [("children",
                                         VArr [VStr "loading"; VStr "ready"])])])
             (RenderNodeIn VNull)],
       [Constructed "Loader"; WillMount "Loader"; Turn; Turn; Rendered "Loader"]).
Proof.
  pose proof (λ fuel,
    render_waits_for_hook_promise Demo.htmlStringEscape Demo.getContext
      Demo.getChildContext Demo.syncSetState Demo.fenv Demo.functionSource
      fuel [] Demo.loader VNull [] "Loader" (Demo.Loader Demo.loaded) (VObj 11 [])
      _ _ Demo.loaded _ "loaded.then" _
      eq_refl eq_refl eq_refl eq_refl eq_refl eq_refl eq_refl eq_refl eq_refl) as H.
  destruct (H 1) as [Hwaiting _]. destruct (H 2) as [_ Hrendered].
  split; [exact (Hwaiting (le_n 2)) | exact (Hrendered (le_n 2))].
Defined.

(** [<Failing/>]: its promise is rejected, and after a thousand turns of
    the event loop the wait is still going on. *)
Lemma rejected_hook_promise_waits_forever_demo :
  demo_evalComponent 1000 [] Demo.failing VNull []
  = (Diverge, [Constructed "Failing"; WillMount "Failing"] ++ replicate 1000 Turn).
Proof.
  exact (rejected_hook_promise_waits_forever Demo.htmlStringEscape Demo.getContext
      Demo.getChildContext Demo.syncSetState Demo.fenv Demo.functionSource
      1000 [] Demo.failing VNull [] "Failing" (Demo.Loader Demo.failed) (VObj 13 [])
      _ _ Demo.failed _ "failed.then" _
      eq_refl eq_refl eq_refl eq_refl eq_refl eq_refl eq_refl eq_refl eq_refl eq_refl).
Defined.

(** ** The further properties on the program of [Demo] *)

Abbreviation more_evalComponent :=
  (evalComponent Demo.htmlStringEscape Demo.getContext Demo.getChildContext
     Demo.syncSetState Demo.fenv_more Demo.functionSource).

(** [["a", [null, <i>x</i>], 0]]: two sources, for ["a"] and [<i>x</i>]. *)
Lemma renderChildren_registers_leaves_demo :
  demo_renderChildren []
    (VArr [VStr "a"; VArr [VNull; Demo.italic]; VNum (Finite 0)]) VNull
  = Ok [Emit (λ _, "{a}"); DelegateCached Demo.italic (RenderNodeIn VNull)].
Proof.
  exact (proj1 (renderChildren_registers_leaves Demo.htmlStringEscape
                  Demo.functionSource []
                  (VArr [VStr "a"; VArr [VNull; Demo.italic]; VNum (Finite 0)])
                  VNull eq_refl)).
Defined.

(** [["a", [true, "b"]]]: [true] is the first unknown leaf. *)
Lemma renderChildren_first_unknown_demo :
  demo_renderChildren [] (VArr [VStr "a"; VArr [VBool true; VStr "b"]]) VNull
  = Throw (TypeError "Unknown node of type: undefined").
Proof.
  exact (renderChildren_first_unknown Demo.htmlStringEscape Demo.functionSource
           [] (VArr [VStr "a"; VArr [VBool true; VStr "b"]]) VNull
           [VStr "a"] (VBool true) [VStr "b"] eq_refl eq_refl eq_refl).
Defined.

(** An element without props, and no node at all. *)
Lemma renderNode_without_props_demo :
  demo_renderNode [] VUndefined VNull
  = Throw (TypeError "Cannot read property 'props' of undefined")
  ∧ demo_renderNode [] Demo.propless VNull
    = Throw (TypeError "Cannot read property 'dangerouslySetInnerHTML' of undefined").
Proof.
  split.
  - exact (proj1 (renderNode_without_props Demo.renderAttrs Demo.REACT_ID
                    Demo.functionSource [] VUndefined VNull) eq_refl).
  - exact (proj2 (renderNode_without_props Demo.renderAttrs Demo.REACT_ID
                    Demo.functionSource [] Demo.propless VNull) eq_refl eq_refl).
Defined.

(** [<Hello name="you"/>] with no turn of the event loop to spend. *)
Lemma evalComponent_function_component_demo :
  demo_evalComponent 0 [] Demo.hello VNull []
  = (Ok [DelegateCached
           (VObj 5 [("type", VStr "b");
                    ("props", VObj 6 [("children", VStr "you")])])
           (RenderNodeIn VNull)],
     [Called "Hello"]).
Proof.
  exact (evalComponent_function_component Demo.htmlStringEscape Demo.getContext
           Demo.getChildContext Demo.syncSetState Demo.fenv Demo.functionSource
           0 [] Demo.hello VNull [] "Hello" (VObj 15 [("name", VStr "you")])
           Demo.Hello eq_refl eq_refl eq_refl).
Defined.

(** [<Plain/>] renders the state of its constructor. *)
Lemma evalComponent_without_hook_demo :
  more_evalComponent 0 [] (Demo.component 40 "Plain") VNull []
  = (Ok [Emit (λ _, "{new}")], [Constructed "Plain"; Rendered "Plain"]).
Proof.
  exact (evalComponent_without_hook Demo.htmlStringEscape Demo.getContext
           Demo.getChildContext Demo.syncSetState Demo.fenv_more
           Demo.functionSource 0 [] (Demo.component 40 "Plain") VNull []
           "Plain" (VObj 41 []) Demo.Plain
           (VObj 30 [("status", VStr "new")])
           eq_refl eq_refl eq_refl eq_refl eq_refl).
Defined.

(** [<Sync/>] renders the state its hook has set. *)
Lemma evalComponent_hook_not_thenable_demo :
  more_evalComponent 0 [] (Demo.component 42 "Sync") VNull []
  = (Ok [Emit (λ _, "{mounted}")],
     [Constructed "Sync"; WillMount "Sync"; Rendered "Sync"]).
Proof.
  exact (evalComponent_hook_not_thenable Demo.htmlStringEscape Demo.getContext
           Demo.getChildContext Demo.syncSetState Demo.fenv_more
           Demo.functionSource 0 [] (Demo.component 42 "Sync") VNull []
           "Sync" (VObj 43 []) Demo.Sync
           (VObj 31 [("status", VStr "new")])
           (fun _ _ _ =>
              SetState (VObj 32 [("status", VStr "mounted")]) (Return VUndefined))
           VUndefined
           (VObj 31 [("status", VStr "mounted"); ("status", VStr "new")])
           eq_refl eq_refl eq_refl eq_refl eq_refl eq_refl eq_refl).
Defined.

(** [<NoCtor/>] and [<Broken/>] throw what their code throws. *)
Lemma evalComponent_hook_throws_demo :
  more_evalComponent 5 [] (Demo.component 44 "NoCtor") VNull []
  = (Throw (Thrown (VStr "bad constructor")), [Constructed "NoCtor"])
  ∧ more_evalComponent 5 [] (Demo.component 46 "Broken") VNull []
    = (Throw (Thrown (VStr "bad hook")), [Constructed "Broken"; WillMount "Broken"]).
Proof.
  split.
  - exact (proj1 (evalComponent_hook_throws Demo.htmlStringEscape Demo.getContext
                    Demo.getChildContext Demo.syncSetState Demo.fenv_more
                    Demo.functionSource 5 [] (Demo.component 44 "NoCtor") VNull []
                    "NoCtor" (VObj 45 []) Demo.NoCtor eq_refl eq_refl eq_refl)
             (VStr "bad constructor") eq_refl).
  - exact (proj2 (evalComponent_hook_throws Demo.htmlStringEscape Demo.getContext
                    Demo.getChildContext Demo.syncSetState Demo.fenv_more
                    Demo.functionSource 5 [] (Demo.component 46 "Broken") VNull []
                    "Broken" (VObj 47 []) Demo.Broken eq_refl eq_refl eq_refl)
             (VObj 33 []) (fun _ _ _ => Raise (VStr "bad hook"))
             (Thrown (VStr "bad hook")) eq_refl eq_refl eq_refl).
Defined.

(** A node with the marker and no [type]. *)
Lemma evalComponent_type_not_function_demo :
  ∃ message,
    demo_evalComponent 5 [] Demo.untyped VNull []
    = (Throw (TypeError message), []).
Proof.
  apply (evalComponent_type_not_function Demo.htmlStringEscape Demo.getContext
           Demo.getChildContext Demo.syncSetState Demo.fenv Demo.functionSource
           5 [] Demo.untyped VNull [] VUndefined (VObj 51 []));
    [reflexivity | reflexivity | discriminate].
Defined.

(** [<Odd/>]: the hook returns [{then: 5}]. *)
Lemma evalComponent_then_not_callable_demo :
  more_evalComponent 5 [] (Demo.component 48 "Odd") VNull []
  = (Throw (TypeError "promise.then is not a function"),
     [Constructed "Odd"; WillMount "Odd"]).
Proof.
  apply (evalComponent_then_not_callable Demo.htmlStringEscape Demo.getContext
           Demo.getChildContext Demo.syncSetState Demo.fenv_more
           Demo.functionSource 5 [] (Demo.component 48 "Odd") VNull []
           "Odd" (VObj 49 []) Demo.Odd (VObj 34 [])
           (fun _ _ _ => Return (VObj 35 [("then", VNum (Finite 5))]))
           (VObj 35 [("then", VNum (Finite 5))]) (VObj 34 []));
    try reflexivity. discriminate.
Defined.
